(** * DataTable: a shallow embedding of [textual/widgets/_datatable.py]

    The widget keeps a list of columns, a dictionary of rows keyed by an
    integer, and an LRU cache of rendered cells.  Rendering threads the
    widget through a state-and-exception monad: the render path writes
    the cache and may raise [IndexError]; everything else is read.

    The [rich] console, [Segment.apply_style], [Segment.adjust_line_length]
    and [line_crop] are collaborators of the widget.  They are gathered in
    a record [Host]; what a theorem needs to know about them is stated as
    an explicit contract on that record. *)

From Stdlib Require Import Ascii.
From stdpp Require Import gmap strings list fin_maps.

Open Scope Z_scope.

(** ** Python sequence primitives *)

Section PyList.
Context {A : Type}.

(** [l[i]]: a negative index counts from the end, anything outside
    [-len, len) raises [IndexError] (here: [None]). *)
Definition py_index (l : list A) (i : Z) : option A :=
  if decide (0 ≤ i) then l !! Z.to_nat i
  else if decide (- Z.of_nat (length l) ≤ i)
       then l !! Z.to_nat (Z.of_nat (length l) + i)
       else None.

(** [l[:n]] *)
Definition py_slice_to (n : Z) (l : list A) : list A :=
  if decide (0 ≤ n) then take (Z.to_nat n) l
  else take (length l - Z.to_nat (- n))%nat l.

(** [l[n:]] *)
Definition py_slice_from (n : Z) (l : list A) : list A :=
  if decide (0 ≤ n) then drop (Z.to_nat n) l
  else drop (length l - Z.to_nat (- n))%nat l.
End PyList.

(** [range(a, b)] *)
Definition py_range (a b : Z) : list Z := seqZ a (b - a).

(** [sum(...)] over integers *)
Definition py_sum (l : list Z) : Z := foldr Z.add 0 l.

(** ** Exceptions and the monad of the widget's methods *)

(** [IndexError] and [KeyError] are what Python raises on the paths
    embedded here.  [ShapeMismatch] is the error named by the
    specification for [add_row]; no statement of the source raises it. *)
Inductive exn := IndexError | KeyError | ShapeMismatch.

Inductive outcome (A : Type) :=
| Ok (a : A)
| Raise (e : exn).
Arguments Ok {A} a.
Arguments Raise {A} e.

(** A method takes the object and gives back an outcome together with the
    object as the call left it: writes made before an exception stay. *)
Definition M (S A : Type) : Type := S → outcome A * S.

Definition ret {S A} (a : A) : M S A := λ s, (Ok a, s).
Definition raise {S A} (e : exn) : M S A := λ s, (Raise e, s).
Definition bind {S A B} (m : M S A) (k : A → M S B) : M S B :=
  λ s, match m s with
       | (Ok a, s') => k a s'
       | (Raise e, s') => (Raise e, s')
       end.
Definition gets {S A} (f : S → A) : M S A := λ s, (Ok (f s), s).
Definition modify {S} (f : S → S) : M S unit := λ s, (Ok tt, f s).
Definition lift_opt {S A} (e : exn) (o : option A) : M S A :=
  match o with Some a => ret a | None => raise e end.

Notation "'let*' x ':=' m 'in' k" := (bind m (λ x, k))
  (at level 10, x name, m at level 100, k at level 200).
Notation "m ';;;' k" := (bind m (λ _, k))
  (at level 100, k at level 200, right associativity).

(** A list comprehension or [for] loop whose body is a method call. *)
Fixpoint mapM {S A B} (f : A → M S B) (l : list A) : M S (list B) :=
  match l with
  | [] => ret []
  | a :: l' => let* b := f a in let* bs := mapM f l' in ret (b :: bs)
  end.

(** Two outcomes are related when both return related values or both
    raise the same exception. *)
Definition outcome_rel {B} (Q : B → B → Prop) (r1 r2 : outcome B) : Prop :=
  match r1, r2 with
  | Ok b1, Ok b2 => Q b1 b2
  | Raise e1, Raise e2 => e1 = e2
  | _, _ => False
  end.

(** A computation that does not look at what [g] changes. *)
Definition blind_to {S A} (g : S → S) (m : M S A) : Prop :=
  ∀ s, m (g s) = ((m s).1, g (m s).2).

(** ** The cell render cache *)

(** [textual._lru_cache.LRUCache] is imported by the widget, but its file
    is not among the sources at hand; the cache below is written from
    what the specification says about it. *)
Module LRUCache.
Section Cache.
Context {K V : Type} `{EqDecision K}.

(** Modelled from the spec: the class [LRUCache], "a bounded associative
    cache" with a "fixed capacity"; the entries are kept least recently
    used first, as in an ordered dictionary. *)
Record t := Build { maxsize : Z; entries : list (K * V) }.

(** Modelled from the spec: [LRUCache(n)], "created empty". *)
Definition new (n : Z) : t := {| maxsize := n; entries := [] |}.

(** The value bound to a key in a list of entries. *)
Fixpoint assoc (k : K) (es : list (K * V)) : option V :=
  match es with
  | [] => None
  | (k', v) :: es' => if decide (k' = k) then Some v else assoc k es'
  end.

(** The entries under other keys. *)
Definition without (k : K) (es : list (K * V)) : list (K * V) :=
  filter (λ e, e.1 ≠ k) es.

Definition keys (c : t) : list K := (entries c).*1.

Definition lookup (k : K) (c : t) : option V := assoc k (entries c).

(** Modelled from the spec: [key in cache]; "cache misses are not
    errors". *)
Definition contains (k : K) (c : t) : bool := bool_decide (is_Some (lookup k c)).

(** Modelled from the spec: [cache[key] = value].  The entry becomes the
    most recent one; "cache capacity overflow silently evicts, never
    rejects a write", and the "least-recently-used" entry is the one to
    go. *)
Definition set (k : K) (v : V) (c : t) : t :=
  let es := without k (entries c) ++ [(k, v)] in
  {| maxsize := maxsize c;
     entries := if decide (maxsize c < Z.of_nat (length es)) then drop 1 es else es |}.

(** Modelled from the spec: a use makes the entry the most recent one. *)
Definition touch (k : K) (v : V) (c : t) : t :=
  {| maxsize := maxsize c; entries := without k (entries c) ++ [(k, v)] |}.

(** Modelled from the spec: [cache[key]], a use of the entry; a missing
    key is Python's [KeyError] (here: [None]). *)
Definition getitem (k : K) (c : t) : option (V * t) :=
  match lookup k c with
  | Some v => Some (v, touch k v c)
  | None => None
  end.

(** Modelled from the spec: "clearing the cache". *)
Definition clear (c : t) : t := {| maxsize := maxsize c; entries := [] |}.

(** Representation invariant of the ordered dictionary: one entry per
    key. *)
Definition wf (c : t) : Prop := NoDup (keys c).
End Cache.
Arguments t : clear implicits.
End LRUCache.

(** ** Styled text *)

(** [rich.text.Text], reduced to its characters; [Text()] is the empty
    text. *)
Definition Text := string.
Abbreviation empty_text := EmptyString.

Section Model.
Context {CellType Style : Type}.

(** [rich.segment.Segment]: a run of characters sharing one style.
    Every character is taken to fill one cell of the screen. *)
Record Segment := { text : string; style : option Style }.

Definition Lines : Type := list (list Segment).

(** One screen cell: a character and the style it is drawn in. *)
Definition StyledChar : Type := Ascii.ascii * option Style.

Definition segment_cells (s : Segment) : list StyledChar :=
  (λ ch, (ch, style s)) <$> String.list_ascii_of_string (text s).

Definition cells (line : list Segment) : list StyledChar :=
  concat (segment_cells <$> line).

(** Total styled-character width of a line. *)
Definition line_length (line : list Segment) : Z := Z.of_nat (length (cells line)).

(** What a row holds: [list[CellType | Text]]. *)
Inductive RowItem :=
| ItemText (t : Text)
| ItemCell (c : CellType).

(** ** Data model *)

Record Column := {
  label : Text;
  width : Z;
  visible : bool;
  index : Z
}.

(** [Column(label, width, index=i)]: [visible] keeps its default. *)
Definition mkColumn (l : Text) (w : Z) (i : Z) : Column :=
  {| label := l; width := w; visible := false; index := i |}.

(** [textual.geometry.Size] *)
Record Size := { size_width : Z; size_height : Z }.

(** The attributes of the widget that the embedded methods use.  The
    dictionary [_cells] is never read, and the widget's name, id and
    classes play no part; [header_style] stands for the style of the
    [Header] child and [colors_style] for the style made from
    [self.colors]. *)
Record DataTable := {
  columns : list Column;
  data : gmap Z (list CellType);
  row_count : Z;
  _cell_render_cache : LRUCache.t (Z * Z) Lines;
  show_header : bool;
  fixed_rows : Z;
  fixed_columns : Z;
  virtual_size : Size;
  (* supplied by the hosting widget *)
  scroll_offset : Z * Z;
  content_region_width : Z;
  header_style : Style;
  colors_style : Style
}.

(** Assignments to one attribute. *)
Definition set_columns (cs : list Column) (t : DataTable) : DataTable :=
  {| columns := cs; data := data t; row_count := row_count t;
     _cell_render_cache := _cell_render_cache t; show_header := show_header t;
     fixed_rows := fixed_rows t; fixed_columns := fixed_columns t;
     virtual_size := virtual_size t; scroll_offset := scroll_offset t;
     content_region_width := content_region_width t;
     header_style := header_style t; colors_style := colors_style t |}.

Definition set_data (d : gmap Z (list CellType)) (t : DataTable) : DataTable :=
  {| columns := columns t; data := d; row_count := row_count t;
     _cell_render_cache := _cell_render_cache t; show_header := show_header t;
     fixed_rows := fixed_rows t; fixed_columns := fixed_columns t;
     virtual_size := virtual_size t; scroll_offset := scroll_offset t;
     content_region_width := content_region_width t;
     header_style := header_style t; colors_style := colors_style t |}.

Definition set_row_count (n : Z) (t : DataTable) : DataTable :=
  {| columns := columns t; data := data t; row_count := n;
     _cell_render_cache := _cell_render_cache t; show_header := show_header t;
     fixed_rows := fixed_rows t; fixed_columns := fixed_columns t;
     virtual_size := virtual_size t; scroll_offset := scroll_offset t;
     content_region_width := content_region_width t;
     header_style := header_style t; colors_style := colors_style t |}.

Definition set_cache (c : LRUCache.t (Z * Z) Lines) (t : DataTable) : DataTable :=
  {| columns := columns t; data := data t; row_count := row_count t;
     _cell_render_cache := c; show_header := show_header t;
     fixed_rows := fixed_rows t; fixed_columns := fixed_columns t;
     virtual_size := virtual_size t; scroll_offset := scroll_offset t;
     content_region_width := content_region_width t;
     header_style := header_style t; colors_style := colors_style t |}.

Definition set_virtual_size (sz : Size) (t : DataTable) : DataTable :=
  {| columns := columns t; data := data t; row_count := row_count t;
     _cell_render_cache := _cell_render_cache t; show_header := show_header t;
     fixed_rows := fixed_rows t; fixed_columns := fixed_columns t;
     virtual_size := sz; scroll_offset := scroll_offset t;
     content_region_width := content_region_width t;
     header_style := header_style t; colors_style := colors_style t |}.

Definition set_scroll_offset (o : Z * Z) (t : DataTable) : DataTable :=
  {| columns := columns t; data := data t; row_count := row_count t;
     _cell_render_cache := _cell_render_cache t; show_header := show_header t;
     fixed_rows := fixed_rows t; fixed_columns := fixed_columns t;
     virtual_size := virtual_size t; scroll_offset := o;
     content_region_width := content_region_width t;
     header_style := header_style t; colors_style := colors_style t |}.

Definition set_show_header (b : bool) (t : DataTable) : DataTable :=
  {| columns := columns t; data := data t; row_count := row_count t;
     _cell_render_cache := _cell_render_cache t; show_header := b;
     fixed_rows := fixed_rows t; fixed_columns := fixed_columns t;
     virtual_size := virtual_size t; scroll_offset := scroll_offset t;
     content_region_width := content_region_width t;
     header_style := header_style t; colors_style := colors_style t |}.

(** [DataTable.__init__] with the class-level reactive defaults
    ([show_header = True], [fixed_rows = 1], [fixed_columns = 1]).  The
    arguments are what the hosting widget supplies. *)
Definition __init__ (offset : Z * Z) (region_width : Z) (hstyle cstyle : Style)
  : DataTable :=
  {| columns := []; data := ∅; row_count := 0;
     _cell_render_cache := LRUCache.new 10000;
     show_header := true; fixed_rows := 1; fixed_columns := 1;
     virtual_size := {| size_width := 0; size_height := 0 |};
     scroll_offset := offset; content_region_width := region_width;
     header_style := hstyle; colors_style := cstyle |}.

(** ** Table model and dimensions *)

(** A Python [bool] used as an integer. *)
Definition int_of_bool (b : bool) : Z := if b then 1 else 0.

Definition _update_dimensions (t : DataTable) : DataTable :=
  let max_width := py_sum (width <$> columns t) in
  set_virtual_size
    {| size_width := max_width;
       size_height := Z.of_nat (size (data t)) + int_of_bool (show_header t) |} t.

(** [label] is taken as the [Text] that [Text.from_markup] yields, the
    width is given by the caller; [refresh] only schedules a repaint. *)
Definition add_column (l : Text) (w : Z) : M DataTable unit :=
  modify (λ t, set_columns (columns t ++ [mkColumn l w (Z.of_nat (length (columns t)))]) t) ;;;
  modify _update_dimensions.

Definition add_row (cells : list CellType) : M DataTable unit :=
  modify (λ t, set_data (<[row_count t := cells]> (data t)) t) ;;;
  modify (λ t, set_row_count (row_count t + 1) t) ;;;
  modify _update_dimensions.

Definition get_row (t : DataTable) (y : Z) : list RowItem :=
  if bool_decide (y = 0) && show_header t then
    (λ column, ItemText (label column)) <$> columns t
  else
    (* [y - 1 if self.show_header else 0] is [(y - 1) if ... else 0] *)
    let data_offset := if show_header t then y - 1 else 0 in
    match data t !! data_offset with
    | None => (λ _, ItemText empty_text) <$> columns t
    | Some data => ItemCell <$> data
    end.
End Model.

Arguments Segment : clear implicits.
Arguments Lines : clear implicits.
Arguments StyledChar : clear implicits.
Arguments RowItem : clear implicits.
Arguments DataTable : clear implicits.

(** ** The render path *)

Section Render.
Context {CellType Style : Type}.

Local Abbreviation Segment := (Segment Style).
Local Abbreviation Lines := (Lines Style).
Local Abbreviation DataTable := (DataTable CellType Style).

(** The collaborators of the render path.  [console_render_lines cell w]
    stands for [console.render_lines(Padding(cell, (0, 1)),
    options.update_dimensions(w, 1))]; [style_add] is the sum of styles
    that [apply_style] computes for one cell; [line_crop] is
    [textual._segment_tools.line_crop]. *)
Record Host := {
  console_render_lines : RowItem CellType → Z → Lines;
  style_add : Style → option Style → option Style;
  apply_style : list Segment → Style → list Segment;
  line_crop : list Segment → Z → Z → Z → list Segment;
  adjust_line_length : list Segment → Z → list Segment
}.

Variable host : Host.

Definition _render_cell (y : Z) (column : Column) : M DataTable Lines :=
  let cell_key := (y, index column) in
  let* self := gets id in
  (if negb (LRUCache.contains cell_key (_cell_render_cache self)) then
     let* cell := lift_opt IndexError (py_index (get_row self y) (index column)) in
     let lines := console_render_lines host cell (width column) in
     modify (λ self, set_cache (LRUCache.set cell_key lines (_cell_render_cache self)) self)
   else ret tt) ;;;
  let* self := gets id in
  let* hit := lift_opt KeyError (LRUCache.getitem cell_key (_cell_render_cache self)) in
  modify (set_cache hit.2) ;;;
  ret hit.1.

Definition _render_line (y x1 x2 : Z) : M DataTable (list Segment) :=
  let* self := gets id in
  let width_ := content_region_width self in
  let* cell_segments :=
    mapM (λ column,
            let* lines := _render_cell y column in
            lift_opt IndexError (py_index lines 0))
         (columns self) in
  let* self := gets id in
  let header_style := header_style self in
  let fixed := concat (py_slice_to (fixed_columns self) cell_segments) in
  let fixed_width := py_sum (width <$> py_slice_to (fixed_columns self) (columns self)) in
  let fixed := apply_style host fixed header_style in
  let line := concat cell_segments in
  let segments := fixed ++ line_crop host line (x1 + fixed_width) x2 width_ in
  let line := adjust_line_length host segments width_ in
  let line :=
    if bool_decide (y = 0) && show_header self
    then apply_style host line header_style else line in
  ret line.

Definition render_lines (line_range column_range : Z * Z) : M DataTable Lines :=
  let* self := gets id in
  let scroll_x := (scroll_offset self).1 in
  let scroll_y := (scroll_offset self).2 in
  let y1 := line_range.1 + scroll_y in
  let y2 := line_range.2 + scroll_y in
  let x1 := column_range.1 + scroll_x in
  let x2 := column_range.2 + scroll_x in
  let* fixed_lines := mapM (λ y, _render_line y x1 x2) (py_range 0 (fixed_rows self)) in
  let* lines := mapM (λ y, _render_line y x1 x2) (py_range y1 y2) in
  let* self := gets id in
  let lines :=
    match fixed_lines with
    | [] => lines
    | _ :: _ => fixed_lines ++ py_slice_from (fixed_rows self) lines
    end in
  let style := colors_style self in
  ret ((λ line, apply_style host line style) <$> lines).
End Render.

Arguments Host : clear implicits.

(** ** A concrete host

    A small console over plain strings, used to run the embedding on
    concrete tables: cells are strings, a style is a name, a rendered
    cell is its text with one blank on each side cut or padded to the
    column width, and styles are applied underneath existing ones. *)
Module SampleHost.
Definition Style := string.
Definition CellType := string.

Definition of_cells (cs : list (StyledChar Style)) : list (Segment Style) :=
  (λ c, {| text := String c.1 EmptyString; style := c.2 |}) <$> cs.

Definition blank : StyledChar Style := (" "%char, None).

Definition fit (w : Z) (cs : list (StyledChar Style)) : list (StyledChar Style) :=
  take (Z.to_nat w) (cs ++ replicate (Z.to_nat w - length cs) blank).

Definition item_text (c : RowItem CellType) : string :=
  match c with ItemText t => t | ItemCell s => s end.

Definition render (c : RowItem CellType) (w : Z) : Lines Style :=
  [of_cells (fit w (cells [{| text := String " " (item_text c +:+ " "); style := None |}]))].

Definition add (s : Style) (o : option Style) : option Style :=
  match o with None => Some s | Some s' => Some s' end.

Definition restyle (l : list (Segment Style)) (s : Style) : list (Segment Style) :=
  (λ seg, {| text := text seg; style := add s (style seg) |}) <$> l.

Definition crop (l : list (Segment Style)) (start end_ total : Z) : list (Segment Style) :=
  of_cells (take (Z.to_nat end_ - Z.to_nat start) (drop (Z.to_nat start) (cells l))).

Definition adjust (l : list (Segment Style)) (w : Z) : list (Segment Style) :=
  of_cells (fit w (cells l)).

Definition host : Host CellType Style :=
  {| console_render_lines := render;
     style_add := add;
     apply_style := restyle;
     line_crop := crop;
     adjust_line_length := adjust |}.

(** An empty table in a region 11 cells wide, nothing scrolled. *)
Definition empty : DataTable CellType Style := __init__ (0, 0) 11 "header" "base".
End SampleHost.

(** ** Tables built through the public operations *)

Section Build.
Context {CellType Style : Type}.
Local Abbreviation DataTable := (DataTable CellType Style).

(** The object after a call, whatever the call returned. *)
Definition after {A} (m : M DataTable A) (t : DataTable) : DataTable := (m t).2.

(** [add_column] for each [(label, width)], then [add_row] for each row. *)
Definition with_columns (cols : list (Text * Z)) (t : DataTable) : DataTable :=
  foldl (λ t c, after (add_column c.1 c.2) t) t cols.

Definition with_rows (rows : list (list CellType)) (t : DataTable) : DataTable :=
  foldl (λ t r, after (add_row r) t) t rows.

(** The stored rows are exactly those keyed [0 .. row_count - 1]. *)
Definition rows_dense (t : DataTable) : Prop :=
  0 ≤ row_count t ∧
  Z.of_nat (size (data t)) = row_count t ∧
  ∀ k, is_Some (data t !! k) → 0 ≤ k < row_count t.

(** Every stored row has one value per column. *)
Definition rows_shaped (t : DataTable) : Prop :=
  ∀ k row, data t !! k = Some row → length row = length (columns t).

(** Column indices are positions, as [add_column] assigns them. *)
Definition columns_indexed (t : DataTable) : Prop :=
  ∀ (i : nat) (c : Column), columns t !! i = Some c → index c = Z.of_nat i.

(** The spec's reading of the virtual width: visible columns only. *)
Definition visible_width (cs : list Column) : Z :=
  py_sum (width <$> filter (λ c, visible c = true) cs).
End Build.

(** ** Contracts and invariants of the render path *)

Section Invariants.
Context {CellType Style : Type}.
Local Abbreviation Segment := (Segment Style).
Local Abbreviation Lines := (Lines Style).
Local Abbreviation DataTable := (DataTable CellType Style).
Variable host : Host CellType Style.

(** [adjust_line_length(line, w)] shows the first [w] cells of the line,
    followed by unstyled blanks when the line is shorter. *)
Definition adjust_line_length_spec : Prop :=
  ∀ (l : list Segment) (w : Z), 0 ≤ w →
    cells (adjust_line_length host l w) =
    take (Z.to_nat w)
         (cells l ++ replicate (Z.to_nat w - length (cells l)) (" "%char, None)).

(** [apply_style(line, s)] keeps the characters and combines [s] with the
    style of each cell. *)
Definition apply_style_spec : Prop :=
  ∀ (l : list Segment) (s : Style),
    cells (apply_style host l s) = (λ c, (c.1, style_add host s c.2)) <$> cells l.

(** Rendering into a rectangle of height 1 yields one line. *)
Definition console_one_line : Prop :=
  ∀ (cell : RowItem CellType) (w : Z), length (console_render_lines host cell w) = 1%nat.

(** [t'] is [t] with another cache: the model and the settings agree. *)
Definition same_model (t t' : DataTable) : Prop :=
  t' = set_cache (_cell_render_cache t') t.

(** [v] is what the console yields now for the cell under key [k]. *)
Definition fresh_render (t : DataTable) (k : Z * Z) (v : Lines) : Prop :=
  ∃ column cell,
    column ∈ columns t ∧ k.2 = index column ∧
    py_index (get_row t k.1) (index column) = Some cell ∧
    v = console_render_lines host cell (width column).

(** Every cached entry is the render of the current model. *)
Definition cache_coherent (t : DataTable) : Prop :=
  Forall (λ e, fresh_render t e.1 e.2) (LRUCache.entries (_cell_render_cache t)).

(** How the render path may change the cache [c] into [c']: the capacity
    stays; an entry of [c'] was in [c] or is a render of the current
    model; and, for a cache without duplicate keys, no entry is lost
    unless the cache is full afterwards. *)
Definition cache_evolves (t : DataTable) (c c' : LRUCache.t (Z * Z) Lines) : Prop :=
  LRUCache.maxsize c' = LRUCache.maxsize c ∧
  (∀ e, e ∈ LRUCache.entries c' → e ∈ LRUCache.entries c ∨ fresh_render t e.1 e.2) ∧
  (LRUCache.wf c →
   LRUCache.wf c' ∧
   (length (LRUCache.entries c) ≤ length (LRUCache.entries c'))%nat ∧
   ∀ k, k ∈ LRUCache.keys c → k ∉ LRUCache.keys c' →
        LRUCache.maxsize c ≤ Z.of_nat (length (LRUCache.entries c'))).

(** A render step: the model is kept and the cache evolves. *)
Definition renders_to (t t' : DataTable) : Prop :=
  same_model t t' ∧ cache_evolves t (_cell_render_cache t) (_cell_render_cache t').

(** The parts of [_render_line], named: the body of its loop, the loop,
    and what is computed from the collected [cell_segments]. *)
Definition cell_first_line (y : Z) (column : Column) : M DataTable (list Segment) :=
  let* lines := _render_cell host y column in
  lift_opt IndexError (py_index lines 0).

Definition row_segments (y : Z) (t : DataTable) : outcome (list (list Segment)) * DataTable :=
  mapM (cell_first_line y) (columns t) t.

Definition fixed_segments (t : DataTable) (cell_segments : list (list Segment))
  : list Segment :=
  apply_style host (concat (py_slice_to (fixed_columns t) cell_segments)) (header_style t).

Definition compose_line (t : DataTable) (y x1 x2 : Z)
    (cell_segments : list (list Segment)) : list Segment :=
  let fixed_width := py_sum (width <$> py_slice_to (fixed_columns t) (columns t)) in
  let segments :=
    fixed_segments t cell_segments ++
    line_crop host (concat cell_segments) (x1 + fixed_width) x2 (content_region_width t) in
  let line := adjust_line_length host segments (content_region_width t) in
  if bool_decide (y = 0) && show_header t
  then apply_style host line (header_style t) else line.

(** The end of [render_lines]: fixed rows first, then the overlay. *)
Definition stitch (t : DataTable) (fixed_lines lines : Lines) : Lines :=
  (λ line, apply_style host line (colors_style t)) <$>
  match fixed_lines with
  | [] => lines
  | _ :: _ => fixed_lines ++ py_slice_from (fixed_rows t) lines
  end.

(** The cell a column shows in display row [y], rendered without cache. *)
Definition cell_outcome (t : DataTable) (y : Z) (column : Column) : outcome Lines :=
  match py_index (get_row t y) (index column) with
  | Some cell => Ok (console_render_lines host cell (width column))
  | None => Raise IndexError
  end.

(** The first line of that render, as [_render_line] takes it. *)
Definition cell_line_outcome (t : DataTable) (y : Z) (column : Column)
  : outcome (list Segment) :=
  match cell_outcome t y column with
  | Ok lines => match py_index lines 0 with
                | Some line => Ok line
                | None => Raise IndexError
                end
  | Raise e => Raise e
  end.

(** A table whose cache can be trusted: positions as indices, room for
    an entry, and only renders of the current model cached. *)
Definition coherent_state (t : DataTable) : Prop :=
  columns_indexed t ∧ 1 ≤ LRUCache.maxsize (_cell_render_cache t) ∧ cache_coherent t.

(** The cell segments of a row of empty cells. *)
Definition blank_row (t : DataTable) : list (list Segment) :=
  (λ column, default [] (head (console_render_lines host (ItemText empty_text) (width column))))
    <$> columns t.





(** Display row [y] shows no stored data: it is not the header row and
    no row is stored under the key [get_row] looks up. *)
Definition no_stored_row (t : DataTable) (y : Z) : Prop :=
  if show_header t then y ≠ 0 ∧ data t !! (y - 1) = None else data t !! 0 = None.

(** A cache entry that may be stale but is harmless: the render of some
    cell at the width of its column, and of an empty cell when its row
    shows no stored data. *)
Definition entry_ok (t : DataTable) (e : Z * Z * Lines) : Prop :=
  ∃ column cell,
    column ∈ columns t ∧ e.1.2 = index column ∧
    e.2 = console_render_lines host cell (width column) ∧
    (no_stored_row t e.1.1 → cell = ItemText empty_text).

(** What the render path relies on. *)
Definition table_ok (t : DataTable) : Prop :=
  columns_indexed t ∧ rows_shaped t ∧
  1 ≤ LRUCache.maxsize (_cell_render_cache t) ∧
  Forall (entry_ok t) (LRUCache.entries (_cell_render_cache t)).

(** The tables reached from a new widget by [add_column] while there is
    no row, [add_row] with one value per column, and [render_lines]. *)
Inductive built : DataTable → Prop :=
| built_init offset region_width hstyle cstyle :
    built (__init__ offset region_width hstyle cstyle)
| built_add_column t l w :
    built t → row_count t = 0 → built (after (add_column l w) t)
| built_add_row t cells :
    built t → length cells = length (columns t) → built (after (add_row cells) t)
| built_render t line_range column_range :
    built t → built (render_lines host line_range column_range t).2.

(** Two tables with the same model and coherent caches: the relation
    kept by two runs of the render path. *)
Definition twin_states (t1 t2 : DataTable) : Prop :=
  same_model t1 t2 ∧ coherent_state t1 ∧ coherent_state t2.

End Invariants.

(** ** Sample tables *)

Module Samples.
Import SampleHost.

(** Two columns, of widths 6 and 5, then one row. *)
Definition two_columns : DataTable CellType Style :=
  with_columns [("Name", 6); ("Age", 5)] empty.

Definition one_row : DataTable CellType Style :=
  with_rows [["al"; "30"]] two_columns.

(** [one_row] after its two display rows were rendered once. *)
Definition one_row_warm : DataTable CellType Style :=
  (render_lines host (0, 2) (0, 11) one_row).2.

(** One column, two rows, and the header switched off. *)
Definition two_rows_no_header : DataTable CellType Style :=
  set_show_header false (with_rows [["a"]; ["b"]] (with_columns [("K", 3)] empty)).

(** A table of one column after display row 1 was rendered, when no row
    was stored yet, and then after a row was added. *)
Definition one_column : DataTable CellType Style := with_columns [("K", 3)] empty.
Definition column_K : Column := mkColumn "K" 3 0.
Definition rendered_early : DataTable CellType Style :=
  (_render_cell host 1 column_K one_column).2.
Definition row_added_later : DataTable CellType Style :=
  after (add_row ["x"]) rendered_early.

(** Two columns and a row that has a value for the first one only. *)
Definition short_row : DataTable CellType Style :=
  with_rows [["al"]] two_columns.
Definition column_Age : Column := mkColumn "Age" 5 1.

(** The characters of a line, and of the lines a call returned. *)
Definition plain (line : list (Segment Style)) : string :=
  foldr (λ seg acc, text seg +:+ acc) empty_text line.

Definition texts (r : outcome (Lines Style)) : list string :=
  match r with Ok lines => plain <$> lines | Raise _ => [] end.
End Samples.

(** * Properties *)

Section ModelFacts.
Context {CellType Style : Type}.
Local Abbreviation DataTable := (DataTable CellType Style).
Implicit Types (t : DataTable) (y : Z).

Lemma get_row_header t :
  show_header t = true →
  get_row t 0 = (λ column, ItemText (label column)) <$> columns t.
Proof. intros Hh. unfold get_row. by rewrite Hh. Qed.

Lemma get_row_shown t y :
  show_header t = true → y ≠ 0 →
  get_row t y = match data t !! (y - 1) with
                | Some row => ItemCell <$> row
                | None => (λ _, ItemText empty_text) <$> columns t
                end.
Proof.
  intros Hh Hy. unfold get_row. rewrite Hh, bool_decide_eq_false_2 by done.
  simpl. by destruct (data t !! (y - 1)).
Qed.

(** With the header hidden the row index is not used at all. *)
Lemma get_row_hidden t y :
  show_header t = false →
  get_row t y = match data t !! 0 with
                | Some row => ItemCell <$> row
                | None => (λ _, ItemText empty_text) <$> columns t
                end.
Proof.
  intros Hh. unfold get_row. rewrite Hh, andb_false_r.
  by destruct (data t !! 0).
Qed.

Lemma get_row_fallback_length t y :
  (if show_header t then y ≠ 0 ∧ data t !! (y - 1) = None else data t !! 0 = None) →
  get_row t y = (λ _, ItemText empty_text) <$> columns t ∧
  length (get_row t y) = length (columns t).
Proof.
  intros H. destruct (show_header t) eqn:Hh.
  - destruct H as [Hy Hn]. rewrite get_row_shown, Hn by done.
    by rewrite length_fmap.
  - rewrite get_row_hidden, H by done. by rewrite length_fmap.
Qed.

Lemma add_column_eq (l : Text) (w : Z) t :
  add_column l w t =
  (Ok tt, _update_dimensions
            (set_columns (columns t ++ [mkColumn l w (Z.of_nat (length (columns t)))]) t)).
Proof. reflexivity. Qed.

Lemma add_row_eq (cells : list CellType) t :
  add_row cells t =
  (Ok tt, _update_dimensions
            (set_row_count (row_count t + 1)
               (set_data (<[row_count t := cells]> (data t)) t))).
Proof. reflexivity. Qed.

Lemma rows_dense_init o w (hs cs : Style) :
  rows_dense (__init__ (CellType := CellType) o w hs cs).
Proof.
  split; [done|]. split; [done|].
  intros k [r Hr]. simpl in Hr. by rewrite lookup_empty in Hr.
Qed.

Lemma rows_dense_add_column (l : Text) (w : Z) t :
  rows_dense t → rows_dense (after (add_column l w) t).
Proof. intros H. exact H. Qed.

Lemma rows_dense_add_row (cells : list CellType) t :
  rows_dense t → rows_dense (after (add_row cells) t).
Proof.
  intros (Hn & Hsz & Hk). unfold after. rewrite add_row_eq.
  unfold rows_dense. simpl.
  assert (data t !! row_count t = None) as Hfresh.
  { destruct (data t !! row_count t) eqn:E; [|done].
    specialize (Hk (row_count t) (mk_is_Some _ _ E)). lia. }
  split; [lia|]. split.
  - rewrite map_size_insert_None by done. lia.
  - intros k. rewrite lookup_insert. case_decide; [lia|].
    intros Hs. specialize (Hk k Hs). lia.
Qed.

Lemma rows_dense_with_columns cols t :
  rows_dense t → rows_dense (with_columns cols t).
Proof.
  revert t. induction cols as [|c cols IH]; intros t H; [done|].
  apply IH. by apply rows_dense_add_column.
Qed.

Lemma rows_dense_with_rows rows t :
  rows_dense t → rows_dense (with_rows rows t).
Proof.
  revert t. induction rows as [|r rows IH]; intros t H; [done|].
  apply IH. by apply rows_dense_add_row.
Qed.

(** *** What [add_column] and [add_row] keep *)

Lemma py_index_nat {A} (l : list A) (i : nat) : py_index l (Z.of_nat i) = l !! i.
Proof. unfold py_index. rewrite decide_True by lia. by rewrite Nat2Z.id. Qed.

Lemma py_index_0 {A} (l : list A) : py_index l 0 = head l.
Proof. by destruct l. Qed.

Lemma get_row_length t y : rows_shaped t → length (get_row t y) = length (columns t).
Proof.
  intros Hsh. unfold get_row.
  destruct (bool_decide (y = 0) && show_header t); [by rewrite length_fmap|].
  destruct (data t !! _) as [row|] eqn:E; rewrite length_fmap; [|done].
  by eapply Hsh.
Qed.

Lemma columns_indexed_add_column (l : Text) (w : Z) t :
  columns_indexed t → columns_indexed (after (add_column l w) t).
Proof.
  intros Hidx i c. unfold after. rewrite add_column_eq. simpl.
  intros Hi. apply lookup_app_Some in Hi as [Hi|[Hlen Hi]]; [by apply Hidx|].
  apply list_lookup_singleton_Some in Hi as [Hi <-]. simpl. lia.
Qed.

Lemma columns_indexed_with_columns cols t :
  columns_indexed t → columns_indexed (with_columns cols t).
Proof.
  revert t. induction cols as [|c cols IH]; intros t H; [done|].
  apply IH. by apply columns_indexed_add_column.
Qed.

Lemma with_columns_keeps cols t :
  let t' := with_columns cols t in
  data t' = data t ∧ row_count t' = row_count t ∧
  _cell_render_cache t' = _cell_render_cache t ∧ show_header t' = show_header t ∧
  length (columns t') = (length (columns t) + length cols)%nat.
Proof.
  revert t. induction cols as [|c cols IH]; intros t; simpl.
  - repeat split; lia.
  - destruct (IH (after (add_column c.1 c.2) t)) as (Hd & Hr & Hc & Hh & Hl).
    unfold with_columns in *. rewrite Hd, Hr, Hc, Hh, Hl.
    unfold after. rewrite add_column_eq. simpl. rewrite length_app. simpl.
    repeat split; lia.
Qed.

Lemma with_rows_keeps rows t :
  let t' := with_rows rows t in
  columns t' = columns t ∧ _cell_render_cache t' = _cell_render_cache t ∧
  show_header t' = show_header t.
Proof.
  revert t. induction rows as [|r rows IH]; intros t; simpl; [done|].
  destruct (IH (after (add_row r) t)) as (Hc & Hk & Hh).
  unfold with_rows in *. by rewrite Hc, Hk, Hh.
Qed.

Lemma rows_shaped_add_row (cells : list CellType) t :
  rows_shaped t → length cells = length (columns t) →
  rows_shaped (after (add_row cells) t).
Proof.
  intros Hsh Hlen k row. unfold after. rewrite add_row_eq. simpl.
  rewrite lookup_insert. case_decide; [by intros [= <-]|]. apply Hsh.
Qed.

Lemma rows_shaped_with_rows rows t :
  rows_shaped t → Forall (λ row, length row = length (columns t)) rows →
  rows_shaped (with_rows rows t).
Proof.
  revert t. induction rows as [|r rows IH]; intros t Hsh Hall; [done|].
  apply Forall_cons in Hall as [Hr Hall]. simpl. apply IH.
  - by apply rows_shaped_add_row.
  - done.
Qed.

(** A table built from [__init__] by columns first and then rows of the
    right length. *)
Lemma built_table (cols : list (Text * Z)) (rows : list (list CellType))
    o w (hs cs : Style) :
  Forall (λ row, length row = length cols) rows →
  let t := with_rows rows (with_columns cols (__init__ o w hs cs)) in
  columns_indexed t ∧ rows_shaped t ∧ rows_dense t ∧ show_header t = true ∧
  _cell_render_cache t = LRUCache.new 10000.
Proof.
  intros Hall t. subst t. set (t0 := __init__ (CellType := CellType) o w hs cs).
  set (t1 := with_columns cols t0).
  destruct (with_columns_keeps cols t0) as (Hd & Hr & Hc & Hh & Hl). fold t1 in Hd, Hr, Hc, Hh, Hl.
  destruct (with_rows_keeps rows t1) as (Hc' & Hk' & Hh').
  split; [|split; [|split; [|split]]].
  - unfold columns_indexed. rewrite Hc'. apply columns_indexed_with_columns.
    intros j c'. simpl. by rewrite lookup_nil.
  - apply rows_shaped_with_rows.
    + intros k row. rewrite Hd. simpl. by rewrite lookup_empty.
    + by rewrite Hl.
  - apply rows_dense_with_rows, rows_dense_with_columns, rows_dense_init.
  - by rewrite Hh', Hh.
  - by rewrite Hk', Hc.
Qed.
End ModelFacts.

(** ** The monad *)

Section MonadFacts.
Context {S : Type}.

Lemma bind_ok {A B} (m : M S A) (k : A → M S B) s a s' :
  m s = (Ok a, s') → bind m k s = k a s'.
Proof. intros H. unfold bind. by rewrite H. Qed.

Lemma bind_raise {A B} (m : M S A) (k : A → M S B) s e s' :
  m s = (Raise e, s') → bind m k s = (Raise e, s').
Proof. intros H. unfold bind. by rewrite H. Qed.

Lemma mapM_nil {A B} (f : A → M S B) s : mapM f [] s = (Ok [], s).
Proof. reflexivity. Qed.

Lemma mapM_cons {A B} (f : A → M S B) a l s :
  mapM f (a :: l) s =
  match f a s with
  | (Ok b, s') => match mapM f l s' with
                  | (Ok bs, s'') => (Ok (b :: bs), s'')
                  | (Raise e, s'') => (Raise e, s'')
                  end
  | (Raise e, s') => (Raise e, s')
  end.
Proof.
  simpl. unfold bind. destruct (f a s) as [[b|e] s']; [|done].
  by destruct (mapM f l s') as [[bs|e] s''].
Qed.

(** An invariant of the object kept by every call of the loop body is
    kept by the loop, and each result satisfies the body's postcondition. *)
Lemma mapM_invariant {A B} (I : S → Prop) (Q : A → B → Prop) (f : A → M S B) l :
  (∀ a s, a ∈ l → I s → I (f a s).2 ∧ ∀ b, (f a s).1 = Ok b → Q a b) →
  ∀ s, I s → I (mapM f l s).2 ∧ ∀ bs, (mapM f l s).1 = Ok bs → Forall2 Q l bs.
Proof.
  induction l as [|a l IH]; intros Hf s Hs.
  - split; [done|]. intros bs [= <-]. constructor.
  - rewrite mapM_cons.
    destruct (Hf a s) as [Hs' Hq]; [left | done |].
    destruct (f a s) as [[b|e] s'] eqn:Ef; simpl in *; [|by split].
    destruct (IH (λ a' s0 Ha', Hf a' s0 (list_elem_of_further _ _ _ Ha')) s' Hs') as [Hs'' Hqs].
    destruct (mapM f l s') as [[bs|e] s''] eqn:El; simpl in *; [|by split].
    split; [done|]. intros ? [= <-]. constructor; auto.
Qed.

(** The same when the body cannot raise under the invariant: then the
    loop returns. *)
Lemma mapM_total {A B} (I : S → Prop) (Q : A → B → Prop) (f : A → M S B) l :
  (∀ a s, a ∈ l → I s → I (f a s).2 ∧ ∃ b, (f a s).1 = Ok b ∧ Q a b) →
  ∀ s, I s → I (mapM f l s).2 ∧ ∃ bs, (mapM f l s).1 = Ok bs ∧ Forall2 Q l bs.
Proof.
  induction l as [|a l IH]; intros Hf s Hs.
  - split; [done|]. exists []. split; [done | constructor].
  - rewrite mapM_cons.
    destruct (Hf a s) as (Hs' & b & Hb & Hq); [left | done |].
    destruct (f a s) as [[b'|e] s'] eqn:Ef; simpl in *; [|done].
    injection Hb as ->.
    destruct (IH (λ a' s0 Ha', Hf a' s0 (list_elem_of_further _ _ _ Ha')) s' Hs')
      as (Hs'' & bs & Hbs & Hqs).
    destruct (mapM f l s') as [[bs'|e] s''] eqn:El; simpl in *; [|done].
    injection Hbs as ->. split; [done|]. exists (b :: bs). split; [done|].
    by constructor.
Qed.

(** Two runs of two loops over the same list, from related objects. *)
Lemma mapM_related {A B} (R : S → S → Prop) (Q : B → B → Prop) (f g : A → M S B) l :
  (∀ a s1 s2, a ∈ l → R s1 s2 →
     R (f a s1).2 (g a s2).2 ∧ outcome_rel Q (f a s1).1 (g a s2).1) →
  ∀ s1 s2, R s1 s2 →
    R (mapM f l s1).2 (mapM g l s2).2 ∧
    outcome_rel (Forall2 Q) (mapM f l s1).1 (mapM g l s2).1.
Proof.
  induction l as [|a l IH]; intros Hfg s1 s2 Hs.
  - split; [done|]. constructor.
  - rewrite !mapM_cons.
    destruct (Hfg a s1 s2) as [Hs' Hq]; [left | done |].
    destruct (f a s1) as [[b1|e1] s1'], (g a s2) as [[b2|e2] s2']; simpl in *;
      try done.
    destruct (IH (λ a' u1 u2 Ha', Hfg a' u1 u2 (list_elem_of_further _ _ _ Ha')) s1' s2' Hs')
      as [Hs'' Hqs].
    destruct (mapM f l s1') as [[bs1|e1] s1''], (mapM g l s2') as [[bs2|e2] s2''];
      simpl in *; try done.
    split; [done|]. by constructor.
Qed.

Lemma bind_blind_to {A B} (g : S → S) (m : M S A) (k : A → M S B) :
  blind_to g m → (∀ a, blind_to g (k a)) → blind_to g (bind m k).
Proof.
  intros Hm Hk s. unfold bind. rewrite Hm.
  destruct (m s) as [[a|e] s']; simpl; [apply Hk | done].
Qed.

Lemma ret_blind_to {A} (g : S → S) (a : A) : blind_to g (ret a).
Proof. done. Qed.

Lemma lift_opt_blind_to {A} (g : S → S) e (o : option A) : blind_to g (lift_opt e o).
Proof. by destruct o. Qed.

Lemma mapM_blind_to {A B} (g : S → S) (f : A → M S B) l :
  (∀ a, blind_to g (f a)) → blind_to g (mapM f l).
Proof.
  intros Hf. induction l as [|a l IH]; [done|].
  simpl. apply bind_blind_to; [apply Hf|]. intros b.
  apply bind_blind_to; [apply IH|]. intros bs. apply ret_blind_to.
Qed.

Lemma outcome_rel_eq {B} (r1 r2 : outcome B) : outcome_rel eq r1 r2 → r1 = r2.
Proof. destruct r1, r2; simpl; by intros; subst. Qed.

Lemma Forall2_eq {B} (l1 l2 : list B) : Forall2 eq l1 l2 → l1 = l2.
Proof. induction 1; by subst. Qed.
End MonadFacts.

(** ** The cache *)

Section CacheFacts.
Context {K V : Type} `{EqDecision K}.
Implicit Types (k : K) (v : V) (es : list (K * V)) (c : LRUCache.t K V).
Import LRUCache.

Lemma assoc_elem_of k v es : assoc k es = Some v → (k, v) ∈ es.
Proof.
  induction es as [|[k' v'] es IH]; simpl; [done|].
  case_decide; [intros [= ->]; subst; left | intros; right; auto].
Qed.

Lemma assoc_None k es : assoc k es = None ↔ k ∉ es.*1.
Proof.
  induction es as [|[k' v'] es IH]; simpl.
  - split; [intros _; apply not_elem_of_nil | done].
  - rewrite not_elem_of_cons. case_decide as Hk; subst.
    + split; [done | by intros [? _]].
    + rewrite IH. split; [by split | by intros [_ ?]].
Qed.

Lemma assoc_app k es es' :
  assoc k (es ++ es') = match assoc k es with Some v => Some v | None => assoc k es' end.
Proof.
  induction es as [|[k' v'] es IH]; simpl; [done|]. by case_decide.
Qed.

Lemma assoc_without_eq k es : assoc k (without k es) = None.
Proof.
  apply assoc_None. unfold without. rewrite list_elem_of_fmap.
  intros ([k' v'] & -> & Hin). apply list_elem_of_filter in Hin as [Hne _].
  by apply Hne.
Qed.

Lemma assoc_without_ne k k' es : k ≠ k' → assoc k' (without k es) = assoc k' es.
Proof.
  intros Hne. unfold without. induction es as [|[k0 v0] es IH]; [done|].
  destruct (decide (k0 = k)) as [->|Hk0].
  - rewrite filter_cons_False by (simpl; naive_solver).
    simpl. by rewrite decide_False.
  - rewrite filter_cons_True by done. simpl. by rewrite IH.
Qed.

Lemma without_subseteq k es : without k es ⊆ es.
Proof. intros e. unfold without. rewrite list_elem_of_filter. by intros [_ ?]. Qed.

Lemma without_absent k es : k ∉ es.*1 → without k es = es.
Proof.
  intros Hk. unfold without. induction es as [|[k0 v0] es IH]; [done|].
  rewrite fmap_cons, not_elem_of_cons in Hk. destruct Hk as [Hne Hk].
  rewrite filter_cons_True by (simpl; by intros ->). by rewrite IH.
Qed.

Lemma contains_lookup k c : contains k c = true ↔ is_Some (lookup k c).
Proof. unfold contains. by rewrite bool_decide_eq_true. Qed.

Lemma contains_false k c : contains k c = false ↔ lookup k c = None.
Proof.
  unfold contains. rewrite bool_decide_eq_false.
  by rewrite <- eq_None_not_Some.
Qed.

(** Whatever [set] leaves in the cache was there before or is the entry
    just written. *)
Lemma set_entries k v c e :
  e ∈ entries (set k v c) → e = (k, v) ∨ e ∈ entries c.
Proof.
  unfold set. simpl. intros He.
  assert (e ∈ without k (entries c) ++ [(k, v)]) as Hin.
  { case_decide; [|done]. by eapply (subseteq_drop 1). }
  apply elem_of_app in Hin as [Hin|Hin].
  - right. by eapply without_subseteq.
  - left. by apply list_elem_of_singleton in Hin.
Qed.

Lemma touch_entries k v c e :
  e ∈ entries (touch k v c) → e = (k, v) ∨ e ∈ entries c.
Proof.
  unfold touch. simpl. intros Hin.
  apply elem_of_app in Hin as [Hin|Hin].
  - right. by eapply without_subseteq.
  - left. by apply list_elem_of_singleton in Hin.
Qed.

(** With room for at least one entry, a write can be read back. *)
Lemma lookup_set_eq k v c : 1 ≤ maxsize c → lookup k (set k v c) = Some v.
Proof.
  intros Hmax. unfold lookup, set. simpl.
  assert (assoc k (without k (entries c) ++ [(k, v)]) = Some v) as Hfull.
  { rewrite assoc_app, assoc_without_eq. simpl. by rewrite decide_True. }
  case_decide as Hover; [|done].
  destruct (without k (entries c)) as [|[k0 v0] es] eqn:Ew.
  - simpl in Hover. lia.
  - simpl. simpl in Hfull.
    assert (k0 ≠ k) as Hne.
    { assert ((k0, v0) ∈ without k (entries c)) as Hin by (rewrite Ew; left).
      unfold without in Hin. by apply list_elem_of_filter in Hin as [? _]. }
    by rewrite decide_False in Hfull.
Qed.

Lemma getitem_set k v c :
  1 ≤ maxsize c → getitem k (set k v c) = Some (v, touch k v (set k v c)).
Proof. intros Hmax. unfold getitem. by rewrite lookup_set_eq. Qed.

Lemma getitem_hit k v c : lookup k c = Some v → getitem k c = Some (v, touch k v c).
Proof. intros H. unfold getitem. by rewrite H. Qed.

Lemma without_keys k es : (without k es).*1 = filter (λ k', k' ≠ k) es.*1.
Proof.
  unfold without. induction es as [|[k0 v0] es IH]; [done|].
  rewrite fmap_cons. simpl. destruct (decide (k0 = k)) as [->|Hne].
  - rewrite !filter_cons_False by (simpl; naive_solver). done.
  - rewrite !filter_cons_True by done. rewrite fmap_cons. simpl. by rewrite IH.
Qed.

Lemma without_length k es :
  NoDup es.*1 → k ∈ es.*1 → S (length (without k es)) = length es.
Proof.
  unfold without. induction es as [|[k0 v0] es IH]; intros Hnd Hin.
  - by apply elem_of_nil in Hin.
  - rewrite fmap_cons in Hnd, Hin. simpl in *.
    apply NoDup_cons in Hnd as [Hk0 Hnd].
    destruct (decide (k0 = k)) as [->|Hne].
    + rewrite filter_cons_False by (simpl; naive_solver).
      fold (without k es). by rewrite without_absent.
    + rewrite filter_cons_True by done. simpl. rewrite IH; [done..|].
      apply elem_of_cons in Hin as [?|?]; [congruence | done].
Qed.

Lemma wf_touch k v c : wf c → wf (touch k v c).
Proof.
  unfold wf, keys, touch. simpl. intros Hnd.
  rewrite fmap_app, without_keys. simpl.
  apply NoDup_app. split; [by apply NoDup_filter|]. split; [|apply NoDup_singleton].
  intros k' Hin Hk'. apply list_elem_of_singleton in Hk' as ->.
  apply list_elem_of_filter in Hin as [Hne _]. by apply Hne.
Qed.

Lemma wf_set k v c : wf c → wf (set k v c).
Proof.
  intros Hwf. pose proof (wf_touch k v c Hwf) as Ht.
  unfold wf, keys, set, touch in *. simpl in *.
  case_decide; [|done]. rewrite fmap_drop.
  eapply sublist_NoDup; [exact Ht|]. apply sublist_drop.
Qed.

Lemma touch_keys k v c k' :
  k ∈ keys c → k' ∈ keys c → k' ∈ keys (touch k v c).
Proof.
  unfold keys, touch. simpl. intros Hk Hk'.
  rewrite fmap_app, without_keys, elem_of_app, list_elem_of_filter. simpl.
  destruct (decide (k' = k)) as [->|Hne]; [right; left | by left].
Qed.

Lemma touch_length k v c :
  wf c → k ∈ keys c → length (entries (touch k v c)) = length (entries c).
Proof.
  unfold wf, keys, touch. simpl. intros Hnd Hk.
  rewrite length_app. simpl. rewrite <- (without_length k (entries c)) by done. lia.
Qed.

Lemma lookup_keys k v c : lookup k c = Some v → k ∈ keys c.
Proof.
  intros H. apply assoc_elem_of in H. unfold keys.
  apply list_elem_of_fmap. by exists (k, v).
Qed.

Lemma maxsize_set k v c : maxsize (set k v c) = maxsize c.
Proof. done. Qed.

Lemma maxsize_touch k v c : maxsize (touch k v c) = maxsize c.
Proof. done. Qed.

(** A use leaves every binding as it is. *)
Lemma lookup_touch_eq k v c : lookup k (touch k v c) = Some v.
Proof.
  unfold lookup, touch. simpl.
  rewrite assoc_app, assoc_without_eq. simpl. by rewrite decide_True.
Qed.

Lemma lookup_touch_ne k k' v c : k ≠ k' → lookup k' (touch k v c) = lookup k' c.
Proof.
  intros Hne. unfold lookup, touch. simpl.
  rewrite assoc_app, assoc_without_ne by done.
  destruct (assoc k' (entries c)); [done|]. simpl. by rewrite decide_False.
Qed.

(** A write into a cache with room left drops nothing. *)
Lemma lookup_set_ne k k' v c :
  Z.of_nat (length (entries c)) < maxsize c → k ≠ k' →
  lookup k' (set k v c) = lookup k' c.
Proof.
  intros Hroom Hne. unfold lookup, set. simpl.
  pose proof (length_filter (λ e : K * V, e.1 ≠ k) (entries c)) as Hlen.
  rewrite decide_False by (rewrite length_app; unfold without; simpl; lia).
  rewrite assoc_app, assoc_without_ne by done.
  destruct (assoc k' (entries c)); [done|]. simpl. by rewrite decide_False.
Qed.
End CacheFacts.

(** ** The render path, step by step *)

Section RenderFacts.
Context {CellType Style : Type}.
Local Abbreviation Segment := (Segment Style).
Local Abbreviation Lines := (Lines Style).
Local Abbreviation DataTable := (DataTable CellType Style).
Variable host : Host CellType Style.
Implicit Types (t : DataTable) (y : Z) (column : Column).
Import LRUCache.

Lemma set_cache_same t : set_cache (_cell_render_cache t) t = t.
Proof. by destruct t. Qed.

Lemma set_cache_twice c c' t : set_cache c (set_cache c' t) = set_cache c t.
Proof. done. Qed.

Lemma same_model_refl t : same_model t t.
Proof. unfold same_model. by rewrite set_cache_same. Qed.

Lemma same_model_trans t1 t2 t3 : same_model t1 t2 → same_model t2 t3 → same_model t1 t3.
Proof. unfold same_model. intros H12 H23. rewrite H23, H12. done. Qed.

Lemma same_model_sym t1 t2 : same_model t1 t2 → same_model t2 t1.
Proof.
  unfold same_model. intros H. rewrite H.
  by rewrite set_cache_twice, set_cache_same.
Qed.


Lemma same_model_get_row t t' y : same_model t t' → get_row t' y = get_row t y.
Proof. intros ->. done. Qed.

Lemma fresh_render_same_model t t' k v :
  same_model t t' → fresh_render host t' k v ↔ fresh_render host t k v.
Proof. intros ->. done. Qed.

(** *** Evolution of the cache *)

Lemma cache_evolves_refl t c : cache_evolves host t c c.
Proof.
  split; [done|]. split; [by left|]. intros Hwf.
  split; [done|]. split; [done|]. intros k Hin Hout. by destruct Hout.
Qed.

Lemma cache_evolves_trans t c1 c2 c3 :
  cache_evolves host t c1 c2 → cache_evolves host t c2 c3 → cache_evolves host t c1 c3.
Proof.
  intros (Hm12 & He12 & Hw12) (Hm23 & He23 & Hw23).
  split; [congruence|]. split.
  - intros e He. destruct (He23 e He) as [He2|?]; [|by right]. by apply He12.
  - intros Hwf1. destruct (Hw12 Hwf1) as (Hwf2 & Hl12 & Hk12).
    destruct (Hw23 Hwf2) as (Hwf3 & Hl23 & Hk23).
    split; [done|]. split; [lia|]. intros k Hk1 Hk3.
    destruct (decide (k ∈ keys c2)) as [Hk2|Hk2].
    + rewrite <- Hm12. by apply (Hk23 k).
    + specialize (Hk12 k Hk1 Hk2). lia.
Qed.

Lemma cache_evolves_touch t k v c :
  lookup k c = Some v → cache_evolves host t c (touch k v c).
Proof.
  intros Hhit. split; [done|]. split.
  - intros e He. left. apply touch_entries in He as [->|He]; [|done].
    by apply assoc_elem_of.
  - intros Hwf. pose proof (lookup_keys _ _ _ Hhit) as Hk.
    split; [by apply wf_touch|]. split; [by rewrite touch_length|].
    intros k' Hk' Hout. destruct Hout. by apply touch_keys.
Qed.

Lemma cache_evolves_set t k v c :
  lookup k c = None → fresh_render host t k v → cache_evolves host t c (set k v c).
Proof.
  intros Hmiss Hfresh. split; [done|]. split.
  - intros e He. apply set_entries in He as [->|He]; [by right | by left].
  - intros Hwf. split; [by apply wf_set|].
    apply assoc_None in Hmiss.
    unfold keys, set. simpl. rewrite (without_absent k (entries c)) by done.
    case_decide as Hover.
    + rewrite length_app in Hover. rewrite length_drop, length_app. simpl in *.
      split; [lia|]. intros; lia.
    + rewrite length_app. simpl. split; [lia|]. intros k' Hk' Hout. destruct Hout.
      rewrite fmap_app. apply elem_of_app. by left.
Qed.

(** *** One cell *)

Lemma _render_cell_hit y column t v :
  lookup (y, index column) (_cell_render_cache t) = Some v →
  _render_cell host y column t =
  (Ok v, set_cache (touch (y, index column) v (_cell_render_cache t)) t).
Proof.
  intros Hhit. unfold _render_cell, bind, gets, modify, ret. simpl.
  assert (contains (y, index column) (_cell_render_cache t) = true) as ->.
  { apply contains_lookup. by rewrite Hhit. }
  simpl. by rewrite (getitem_hit _ _ _ Hhit).
Qed.

Lemma _render_cell_miss_raise y column t :
  lookup (y, index column) (_cell_render_cache t) = None →
  py_index (get_row t y) (index column) = None →
  _render_cell host y column t = (Raise IndexError, t).
Proof.
  intros Hmiss Hcell. unfold _render_cell, bind, gets, modify, ret. simpl.
  assert (contains (y, index column) (_cell_render_cache t) = false) as ->.
  { by apply contains_false. }
  simpl. by rewrite Hcell.
Qed.

Lemma _render_cell_miss y column t cell :
  lookup (y, index column) (_cell_render_cache t) = None →
  py_index (get_row t y) (index column) = Some cell →
  1 ≤ maxsize (_cell_render_cache t) →
  let k := (y, index column) in
  let v := console_render_lines host cell (width column) in
  _render_cell host y column t =
  (Ok v, set_cache (touch k v (set k v (_cell_render_cache t))) t).
Proof.
  intros Hmiss Hcell Hmax. unfold _render_cell, bind, gets, modify, ret. simpl.
  assert (contains (y, index column) (_cell_render_cache t) = false) as ->.
  { by apply contains_false. }
  simpl. rewrite Hcell. simpl. by rewrite getitem_set.
Qed.

(** Whatever happens, a cell render changes nothing but the cache, and
    the cache as [cache_evolves] allows. *)
Lemma _render_cell_evolves y column t :
  column ∈ columns t →
  let t' := (_render_cell host y column t).2 in
  same_model t t' ∧
  cache_evolves host t (_cell_render_cache t) (_cell_render_cache t').
Proof.
  intros Hcol.
  destruct (lookup (y, index column) (_cell_render_cache t)) as [v|] eqn:Hl.
  { rewrite (_render_cell_hit _ _ _ _ Hl). simpl. split; [done|].
    by apply cache_evolves_touch. }
  destruct (py_index (get_row t y) (index column)) as [cell|] eqn:Hc.
  2:{ rewrite (_render_cell_miss_raise _ _ _ Hl Hc). simpl.
      split; [apply same_model_refl | apply cache_evolves_refl]. }
  assert (fresh_render host t (y, index column)
            (console_render_lines host cell (width column))) as Hfresh.
  { by exists column, cell. }
  pose proof (cache_evolves_set t _ _ _ Hl Hfresh) as Hset.
  unfold _render_cell, bind, gets, modify, ret. simpl.
  assert (contains (y, index column) (_cell_render_cache t) = false) as ->.
  { by apply contains_false. }
  simpl. rewrite Hc. simpl.
  destruct (getitem _ _) as [[v' c']|] eqn:Hg; simpl.
  - split; [done|]. unfold getitem in Hg.
    destruct (lookup _ (set _ _ _)) as [v''|] eqn:Hl'; [|done].
    injection Hg as <- <-. eapply cache_evolves_trans; [exact Hset|].
    by apply cache_evolves_touch.
  - split; [done | exact Hset].
Qed.

(** While the cache has room left, a cell render keeps every binding. *)
Lemma _render_cell_keeps_entries y column t (k : Z * Z) (u : Lines) :
  Z.of_nat (length (entries (_cell_render_cache t))) < maxsize (_cell_render_cache t) →
  lookup k (_cell_render_cache t) = Some u →
  lookup k (_cell_render_cache (_render_cell host y column t).2) = Some u.
Proof.
  intros Hroom Hk.
  destruct (lookup (y, index column) (_cell_render_cache t)) as [v|] eqn:Hl.
  { rewrite (_render_cell_hit _ _ _ _ Hl). simpl.
    destruct (decide ((y, index column) = k)) as [<-|Hne].
    - rewrite lookup_touch_eq. congruence.
    - by rewrite lookup_touch_ne. }
  destruct (py_index (get_row t y) (index column)) as [cell|] eqn:Hc.
  2:{ by rewrite (_render_cell_miss_raise _ _ _ Hl Hc). }
  rewrite (_render_cell_miss _ _ _ _ Hl Hc) by lia. simpl.
  assert ((y, index column) ≠ k) as Hne by (intros <-; congruence).
  by rewrite lookup_touch_ne, lookup_set_ne.
Qed.

(** *** One line, all lines *)

Lemma renders_to_refl t : renders_to host t t.
Proof. split; [apply same_model_refl | apply cache_evolves_refl]. Qed.

Lemma renders_to_trans t1 t2 t3 :
  renders_to host t1 t2 → renders_to host t2 t3 → renders_to host t1 t3.
Proof.
  intros [Hm12 Hc12] [Hm23 Hc23]. split; [by eapply same_model_trans|].
  eapply cache_evolves_trans; [exact Hc12|].
  destruct Hc23 as (? & He & ?). split; [done|]. split; [|done].
  intros e Hin. destruct (He e Hin) as [?|Hf]; [by left|].
  right. by apply (fresh_render_same_model t1 t2).
Qed.

Lemma renders_to_columns t t' : renders_to host t t' → columns t' = columns t.
Proof. intros [-> _]. done. Qed.

Lemma render_lines_eq (line_range column_range : Z * Z) t :
  let x1 := column_range.1 + (scroll_offset t).1 in
  let x2 := column_range.2 + (scroll_offset t).1 in
  let y1 := line_range.1 + (scroll_offset t).2 in
  let y2 := line_range.2 + (scroll_offset t).2 in
  render_lines host line_range column_range t =
  match mapM (λ y, _render_line host y x1 x2) (py_range 0 (fixed_rows t)) t with
  | (Ok fixed_lines, t1) =>
      match mapM (λ y, _render_line host y x1 x2) (py_range y1 y2) t1 with
      | (Ok lines, t2) => (Ok (stitch host t2 fixed_lines lines), t2)
      | (Raise e, t2) => (Raise e, t2)
      end
  | (Raise e, t1) => (Raise e, t1)
  end.
Proof.
  unfold render_lines, bind, gets, ret. simpl.
  destruct (mapM _ _ t) as [[fixed_lines|e] t1]; [|done].
  by destruct (mapM _ _ t1) as [[lines|e] t2].
Qed.

Lemma cell_first_line_renders_to y column t :
  column ∈ columns t → renders_to host t (cell_first_line host y column t).2.
Proof.
  intros Hcol. pose proof (_render_cell_evolves y column t Hcol) as H.
  unfold cell_first_line, bind. destruct (_render_cell host y column t) as [[lines|e] t'].
  - simpl in *. by destruct (py_index lines 0).
  - done.
Qed.

Lemma row_segments_renders_to y t : renders_to host t (row_segments host y t).2.
Proof.
  unfold row_segments.
  apply (mapM_invariant (renders_to host t) (λ _ _, True)); [|apply renders_to_refl].
  intros column s Hcol Hs. split; [|done].
  eapply renders_to_trans; [exact Hs|]. apply cell_first_line_renders_to.
  by rewrite (renders_to_columns _ _ Hs).
Qed.

Lemma _render_line_eq y x1 x2 t :
  _render_line host y x1 x2 t =
  match row_segments host y t with
  | (Ok cell_segments, t') => (Ok (compose_line host t y x1 x2 cell_segments), t')
  | (Raise e, t') => (Raise e, t')
  end.
Proof.
  pose proof (row_segments_renders_to y t) as [Hm _].
  unfold _render_line, row_segments, cell_first_line, bind, gets, ret in *.
  simpl in *.
  destruct (mapM _ _ _) as [[segs|e] t']; [|done].
  simpl in Hm. rewrite Hm. done.
Qed.

Lemma _render_line_renders_to y x1 x2 t : renders_to host t (_render_line host y x1 x2 t).2.
Proof.
  rewrite _render_line_eq. pose proof (row_segments_renders_to y t) as H.
  by destruct (row_segments host y t) as [[segs|e] t'].
Qed.

Lemma render_rows_renders_to x1 x2 ys t :
  renders_to host t (mapM (λ y, _render_line host y x1 x2) ys t).2.
Proof.
  apply (mapM_invariant (renders_to host t) (λ _ _, True)); [|apply renders_to_refl].
  intros y s _ Hs. split; [|done].
  eapply renders_to_trans; [exact Hs|]. apply _render_line_renders_to.
Qed.

Lemma render_lines_renders_to line_range column_range t :
  renders_to host t (render_lines host line_range column_range t).2.
Proof.
  rewrite render_lines_eq.
  pose proof (render_rows_renders_to (column_range.1 + (scroll_offset t).1)
                (column_range.2 + (scroll_offset t).1)
                (py_range 0 (fixed_rows t)) t) as H1.
  destruct (mapM _ _ t) as [[fixed_lines|e] t1]; [|done]. simpl in H1.
  pose proof (render_rows_renders_to (column_range.1 + (scroll_offset t).1)
                (column_range.2 + (scroll_offset t).1)
                (py_range (line_range.1 + (scroll_offset t).2)
                          (line_range.2 + (scroll_offset t).2)) t1) as H2.
  destruct (mapM _ _ t1) as [[lines|e] t2]; simpl in *; by eapply renders_to_trans.
Qed.

(** *** Coherent caches *)

Lemma columns_indexed_inj t column column' :
  columns_indexed t → column ∈ columns t → column' ∈ columns t →
  index column = index column' → column = column'.
Proof.
  intros Hidx Hc Hc' Heq.
  apply list_elem_of_lookup in Hc as [i Hi]. apply list_elem_of_lookup in Hc' as [j Hj].
  pose proof (Hidx i _ Hi). pose proof (Hidx j _ Hj).
  assert (i = j) as -> by lia. congruence.
Qed.

Lemma coherent_state_renders_to t t' :
  renders_to host t t' → coherent_state host t → coherent_state host t'.
Proof.
  intros [Hm (Hmax & He & _)] (Hidx & Hcap & Hcoh). split; [|split].
  - by rewrite Hm.
  - by rewrite Hmax.
  - apply Forall_forall. intros e Hin.
    apply (fresh_render_same_model t t'); [done|].
    destruct (He e Hin) as [Hold|?]; [|done].
    by eapply (proj1 (Forall_forall _ _) Hcoh).
Qed.


(** With a coherent cache a cell render returns what rendering without
    cache would. *)
Lemma _render_cell_coherent y column t :
  coherent_state host t → column ∈ columns t →
  (_render_cell host y column t).1 = cell_outcome host t y column.
Proof.
  intros (Hidx & Hcap & Hcoh) Hcol. unfold cell_outcome.
  destruct (lookup (y, index column) (_cell_render_cache t)) as [v|] eqn:Hl.
  - rewrite (_render_cell_hit _ _ _ _ Hl). simpl.
    apply assoc_elem_of in Hl.
    destruct (proj1 (Forall_forall _ _) Hcoh _ Hl) as (column' & cell & Hc' & Hi & Hcell & Hv).
    simpl in Hi, Hcell, Hv. subst v.
    assert (column = column') as <- by by eapply columns_indexed_inj.
    by rewrite Hcell.
  - destruct (py_index (get_row t y) (index column)) as [cell|] eqn:Hc.
    + by rewrite (_render_cell_miss _ _ _ _ Hl Hc Hcap).
    + by rewrite (_render_cell_miss_raise _ _ _ Hl Hc).
Qed.

Lemma cell_first_line_coherent y column t :
  coherent_state host t → column ∈ columns t →
  (cell_first_line host y column t).1 = cell_line_outcome host t y column.
Proof.
  intros Hst Hcol. pose proof (_render_cell_coherent y column t Hst Hcol) as H.
  unfold cell_first_line, cell_line_outcome, bind. rewrite <- H.
  destruct (_render_cell host y column t) as [[lines|e] t']; [|done].
  simpl. by destruct (py_index lines 0).
Qed.

Lemma cell_line_outcome_same_model t t' y column :
  same_model t t' → cell_line_outcome host t' y column = cell_line_outcome host t y column.
Proof. intros ->. done. Qed.

Lemma compose_line_same_model t t' y x1 x2 segs :
  same_model t t' → compose_line host t' y x1 x2 segs = compose_line host t y x1 x2 segs.
Proof. intros ->. done. Qed.

Lemma stitch_same_model t t' fl ls :
  same_model t t' → stitch host t' fl ls = stitch host t fl ls.
Proof. intros ->. done. Qed.

Lemma twin_states_step {A} (m1 m2 : M DataTable A) t1 t2 :
  twin_states host t1 t2 →
  renders_to host t1 (m1 t1).2 → renders_to host t2 (m2 t2).2 →
  twin_states host (m1 t1).2 (m2 t2).2.
Proof.
  intros (Hm & H1 & H2) Hr1 Hr2. split; [|split].
  - destruct Hr1 as [Hm1 _], Hr2 as [Hm2 _].
    eapply same_model_trans; [apply same_model_sym, Hm1|].
    eapply same_model_trans; [exact Hm | exact Hm2].
  - by eapply coherent_state_renders_to.
  - by eapply coherent_state_renders_to.
Qed.

Lemma row_segments_twin y t1 t2 :
  twin_states host t1 t2 →
  twin_states host (row_segments host y t1).2 (row_segments host y t2).2 ∧
  (row_segments host y t1).1 = (row_segments host y t2).1.
Proof.
  intros Htw. unfold row_segments.
  assert (columns t2 = columns t1) as -> by (destruct Htw as [-> _]; done).
  destruct (mapM_related
              (λ s1 s2, twin_states host s1 s2 ∧ columns s1 = columns t1) eq
              (cell_first_line host y) (cell_first_line host y) (columns t1))
    with (s1 := t1) (s2 := t2) as [[Htw' _] Hres]; [|done|].
  - intros column s1 s2 Hcol [Hs Hcols].
    pose proof (cell_first_line_renders_to y column s1) as Hr1.
    pose proof (cell_first_line_renders_to y column s2) as Hr2.
    destruct Hs as (Hm & Hc1 & Hc2).
    assert (columns s2 = columns s1) as Hcols2 by (rewrite Hm; done).
    rewrite Hcols in Hr1. rewrite Hcols2, Hcols in Hr2.
    specialize (Hr1 Hcol). specialize (Hr2 Hcol).
    split; [split|].
    + by apply twin_states_step.
    + by rewrite (renders_to_columns _ _ Hr1).
    + rewrite !cell_first_line_coherent by (done || by rewrite ?Hcols2, Hcols).
      rewrite (cell_line_outcome_same_model s1 s2) by done.
      by destruct (cell_line_outcome host s1 y column).
  - split; [done|]. apply outcome_rel_eq.
    destruct (mapM _ _ t1).1, (mapM _ _ t2).1; simpl in *; try done.
    f_equal. by apply Forall2_eq.
Qed.

Lemma _render_line_twin y x1 x2 t1 t2 :
  twin_states host t1 t2 →
  twin_states host (_render_line host y x1 x2 t1).2 (_render_line host y x1 x2 t2).2 ∧
  (_render_line host y x1 x2 t1).1 = (_render_line host y x1 x2 t2).1.
Proof.
  intros Htw. destruct (row_segments_twin y t1 t2 Htw) as [Htw' Hres].
  rewrite !_render_line_eq.
  destruct (row_segments host y t1) as [[segs1|e1] t1'],
           (row_segments host y t2) as [[segs2|e2] t2']; simpl in *.
  - split; [done|]. injection Hres as ->.
    destruct Htw as [Hm _]. by rewrite (compose_line_same_model t1 t2).
  - done.
  - done.
  - split; [done|]. by injection Hres as ->.
Qed.

Lemma render_rows_twin x1 x2 ys t1 t2 :
  twin_states host t1 t2 →
  twin_states host (mapM (λ y, _render_line host y x1 x2) ys t1).2
              (mapM (λ y, _render_line host y x1 x2) ys t2).2 ∧
  (mapM (λ y, _render_line host y x1 x2) ys t1).1 =
  (mapM (λ y, _render_line host y x1 x2) ys t2).1.
Proof.
  intros Htw.
  destruct (mapM_related (twin_states host) eq
              (λ y, _render_line host y x1 x2) (λ y, _render_line host y x1 x2) ys)
    with (s1 := t1) (s2 := t2) as [Htw' Hres]; [|done|].
  - intros y s1 s2 _ Hs. destruct (_render_line_twin y x1 x2 s1 s2 Hs) as [? Heq].
    split; [done|]. rewrite Heq. by destruct (_render_line host y x1 x2 s2).1.
  - split; [done|]. apply outcome_rel_eq.
    destruct (mapM _ _ t1).1, (mapM _ _ t2).1; simpl in *; try done.
    f_equal. by apply Forall2_eq.
Qed.

Lemma render_lines_twin line_range column_range t1 t2 :
  twin_states host t1 t2 →
  (render_lines host line_range column_range t1).1 =
  (render_lines host line_range column_range t2).1.
Proof.
  intros Htw. rewrite !render_lines_eq.
  destruct Htw as (Hm & Hc1 & Hc2).
  assert (scroll_offset t2 = scroll_offset t1) as -> by (rewrite Hm; done).
  assert (fixed_rows t2 = fixed_rows t1) as -> by (rewrite Hm; done).
  set (x1 := column_range.1 + (scroll_offset t1).1).
  set (x2 := column_range.2 + (scroll_offset t1).1).
  destruct (render_rows_twin x1 x2 (py_range 0 (fixed_rows t1)) t1 t2) as [Htw1 Hres1];
    [done|].
  destruct (mapM _ _ t1) as [[fl1|e1] t1'], (mapM _ _ t2) as [[fl2|e2] t2'];
    simpl in *; try done.
  injection Hres1 as ->.
  destruct (render_rows_twin x1 x2
              (py_range (line_range.1 + (scroll_offset t1).2)
                        (line_range.2 + (scroll_offset t1).2)) t1' t2') as [Htw2 Hres2];
    [done|].
  destruct (mapM _ _ t1') as [[ls1|e1] t1''], (mapM _ _ t2') as [[ls2|e2] t2''];
    simpl in *; try done.
  injection Hres2 as ->. destruct Htw2 as [Hm2 _].
  by rewrite (stitch_same_model t1'' t2'').
Qed.

(** *** Tables that render without raising *)

Lemma rows_shaped_same_model t t' : same_model t t' → rows_shaped t → rows_shaped t'.
Proof. intros ->. done. Qed.

Lemma cell_line_outcome_ok y column t :
  columns_indexed t → rows_shaped t → console_one_line host → column ∈ columns t →
  ∃ cell line,
    py_index (get_row t y) (index column) = Some cell ∧
    console_render_lines host cell (width column) = [line] ∧
    cell_line_outcome host t y column = Ok line.
Proof.
  intros Hidx Hsh Hone Hcol. apply list_elem_of_lookup in Hcol as [i Hi].
  rewrite (Hidx i column Hi).
  destruct (lookup_lt_is_Some_2 (get_row t y) i) as [cell Hcell].
  { rewrite get_row_length by done. by eapply lookup_lt_Some. }
  pose proof (Hone cell (width column)) as Hlen.
  destruct (console_render_lines host cell (width column)) as [|line [|? ?]] eqn:Hr;
    try done.
  exists cell, line. rewrite py_index_nat. split; [done|]. split; [done|].
  unfold cell_line_outcome, cell_outcome.
  by rewrite (Hidx i column Hi), py_index_nat, Hcell, Hr.
Qed.

Lemma py_index_fmap_const {A B} (b : B) (l : list A) i (c : B) :
  py_index ((λ _, b) <$> l) i = Some c → c = b.
Proof.
  unfold py_index. repeat case_decide; try done;
    rewrite list_lookup_fmap; destruct (l !! _); simpl; congruence.
Qed.

Lemma no_stored_row_get_row t y :
  no_stored_row t y → get_row t y = (λ _, ItemText empty_text) <$> columns t.
Proof. intros H. by apply get_row_fallback_length. Qed.

Lemma fresh_render_entry_ok t k v : fresh_render host t k v → entry_ok host t (k, v).
Proof.
  intros (column & cell & Hcol & Hk & Hcell & ->). exists column, cell.
  split; [done|]. split; [done|]. split; [done|]. simpl.
  intros Hno. rewrite (no_stored_row_get_row _ _ Hno) in Hcell.
  by eapply py_index_fmap_const.
Qed.

Lemma table_ok_renders_to t t' : renders_to host t t' → table_ok host t → table_ok host t'.
Proof.
  intros [Hm (Hmax & He & _)] (Hidx & Hsh & Hcap & Hent).
  split; [by rewrite Hm|]. split; [by rewrite Hm|]. split; [by rewrite Hmax|].
  apply Forall_forall. intros e Hin.
  assert (entry_ok host t e) as Hok.
  { destruct (He e Hin) as [Hold|Hfresh].
    - by eapply (proj1 (Forall_forall _ _) Hent).
    - destruct e as [k v]. by apply fresh_render_entry_ok. }
  revert Hok. rewrite Hm. done.
Qed.

Lemma coherent_table_ok t : coherent_state host t → rows_shaped t → table_ok host t.
Proof.
  intros (Hidx & Hcap & Hcoh) Hsh. split; [done|]. split; [done|]. split; [done|].
  eapply Forall_impl; [exact Hcoh|]. intros [k v]. apply fresh_render_entry_ok.
Qed.

(** On such a table a cell always renders: to the one line the console
    yields for some cell at the column width, an empty cell when the
    row shows no stored data. *)
Lemma cell_first_line_total y column t :
  table_ok host t → console_one_line host → column ∈ columns t →
  ∃ cell line,
    (cell_first_line host y column t).1 = Ok line ∧
    console_render_lines host cell (width column) = [line] ∧
    (no_stored_row t y → cell = ItemText empty_text).
Proof.
  intros (Hidx & Hsh & Hcap & Hent) Hone Hcol. unfold cell_first_line, bind.
  destruct (lookup (y, index column) (_cell_render_cache t)) as [v|] eqn:Hl.
  - rewrite (_render_cell_hit _ _ _ _ Hl). apply assoc_elem_of in Hl.
    destruct (proj1 (Forall_forall _ _) Hent _ Hl) as (column' & cell & Hc' & Hi & Hv & Hblank).
    simpl in Hi, Hv, Hblank. subst v.
    assert (column = column') as <- by by eapply columns_indexed_inj.
    pose proof (Hone cell (width column)) as Hlen.
    destruct (console_render_lines host cell (width column)) as [|line [|? ?]] eqn:Hr;
      try done.
    by exists cell, line.
  - destruct (cell_line_outcome_ok y column t) as (cell & line & Hcell & Hr & _); [done..|].
    rewrite (_render_cell_miss _ _ _ _ Hl Hcell Hcap), Hr. exists cell, line.
    split; [done|]. split; [done|]. intros Hno.
    rewrite (no_stored_row_get_row _ _ Hno) in Hcell. by eapply py_index_fmap_const.
Qed.

Lemma no_stored_row_same_model t t' y : same_model t t' → no_stored_row t' y ↔ no_stored_row t y.
Proof. intros ->. done. Qed.

Lemma row_segments_total y t :
  table_ok host t → console_one_line host →
  ∃ segs, (row_segments host y t).1 = Ok segs ∧
          Forall2 (λ column seg,
                     ∃ cell, console_render_lines host cell (width column) = [seg] ∧
                             (no_stored_row t y → cell = ItemText empty_text))
                  (columns t) segs.
Proof.
  intros Hok Hone. unfold row_segments.
  destruct (mapM_total (λ s, renders_to host t s ∧ table_ok host s)
              (λ column seg,
                 ∃ cell, console_render_lines host cell (width column) = [seg] ∧
                         (no_stored_row t y → cell = ItemText empty_text))
              (cell_first_line host y) (columns t)) with (s := t) as [_ H];
    [| split; [apply renders_to_refl | done] | done].
  intros column s Hcol [Hr Hs].
  assert (column ∈ columns s) as Hcol' by by rewrite (renders_to_columns _ _ Hr).
  pose proof (cell_first_line_renders_to y column s Hcol') as Hr'.
  split.
  - split; [by eapply renders_to_trans | by eapply table_ok_renders_to].
  - destruct (cell_first_line_total y column s) as (cell & line & Hline & Hcons & Hblank);
      [done..|].
    exists line. split; [done|]. exists cell. split; [done|].
    intros Hno. apply Hblank. destruct Hr as [Hm _].
    by apply (no_stored_row_same_model t s).
Qed.

Lemma _render_line_total y x1 x2 t :
  table_ok host t → console_one_line host →
  ∃ segs, (_render_line host y x1 x2 t).1 = Ok (compose_line host t y x1 x2 segs) ∧
          Forall2 (λ column seg,
                     ∃ cell, console_render_lines host cell (width column) = [seg] ∧
                             (no_stored_row t y → cell = ItemText empty_text))
                  (columns t) segs.
Proof.
  intros Hok Hone. destruct (row_segments_total y t Hok Hone) as (segs & Hsegs & Hall).
  exists segs. split; [|done]. rewrite _render_line_eq.
  destruct (row_segments host y t) as [[segs'|e] t']; simpl in *; [|done].
  by injection Hsegs as ->.
Qed.

Lemma render_rows_total x1 x2 ys t :
  table_ok host t → console_one_line host →
  let r := mapM (λ y, _render_line host y x1 x2) ys t in
  table_ok host r.2 ∧ ∃ lines, r.1 = Ok lines.
Proof.
  intros Hok Hone.
  destruct (mapM_total (λ s, renders_to host t s ∧ table_ok host s)
              (λ _ _, True) (λ y, _render_line host y x1 x2) ys) with (s := t)
    as [[_ Hok'] (lines & Hlines & _)];
    [| split; [apply renders_to_refl | done] |].
  - intros y s _ [Hr Hs].
    pose proof (_render_line_renders_to y x1 x2 s) as Hr'. split.
    + split; [by eapply renders_to_trans | by eapply table_ok_renders_to].
    + destruct (_render_line_total y x1 x2 s) as (segs & Hsegs & _); [done..|].
      by eexists.
  - split; [done|]. by exists lines.
Qed.

Lemma render_lines_total line_range column_range t :
  table_ok host t → console_one_line host →
  ∃ lines, (render_lines host line_range column_range t).1 = Ok lines.
Proof.
  intros Hok Hone. rewrite render_lines_eq.
  set (x1 := column_range.1 + (scroll_offset t).1).
  set (x2 := column_range.2 + (scroll_offset t).1).
  destruct (render_rows_total x1 x2 (py_range 0 (fixed_rows t)) t) as (Hok1 & fl & Hfl);
    [done..|].
  destruct (mapM _ _ t) as [[fl'|e] t1]; simpl in *; [|done].
  destruct (render_rows_total x1 x2
              (py_range (line_range.1 + (scroll_offset t).2)
                        (line_range.2 + (scroll_offset t).2)) t1) as (_ & ls & Hls);
    [done..|].
  destruct (mapM _ _ t1) as [[ls'|e] t2]; simpl in *; [|done].
  by eexists.
Qed.

(** Rows without stored data are made of rendered empty cells. *)
Lemma blank_row_segments y t (segs : list (list Segment)) :
  no_stored_row t y →
  Forall2 (λ column seg,
             ∃ cell, console_render_lines host cell (width column) = [seg] ∧
                     (no_stored_row t y → cell = ItemText empty_text))
          (columns t) segs →
  segs = blank_row host t.
Proof.
  intros Hno Hall. unfold blank_row.
  induction Hall as [|column seg cs segs' (cell & Hr & Hblank) _ IH]; [done|].
  rewrite fmap_cons, <- IH. f_equal.
  rewrite (Hblank Hno) in Hr. by rewrite Hr.
Qed.

(** *** Built tables *)

Lemma no_stored_row_add_row (cells : list CellType) t y :
  no_stored_row (after (add_row cells) t) y → no_stored_row t y.
Proof.
  unfold no_stored_row, after. rewrite add_row_eq. simpl.
  destruct (show_header t).
  - intros [Hy Hn]. split; [done|]. by apply lookup_insert_None in Hn as [? _].
  - intros Hn. by apply lookup_insert_None in Hn as [? _].
Qed.

Lemma built_table_ok t :
  built host t → table_ok host t ∧ rows_dense t ∧ show_header t = true.
Proof.
  induction 1 as [o w hs cs | t l w _ IH Hnone | t cells _ IH Hlen | t lr cr _ IH].
  - split; [|split; [apply rows_dense_init | done]].
    split; [|split; [|split; [done | constructor]]].
    + intros i c. simpl. by rewrite lookup_nil.
    + intros k row. simpl. by rewrite lookup_empty.
  - destruct IH as ((Hidx & Hsh & Hcap & Hent) & Hdense & Hhdr).
    split; [|split; [by apply rows_dense_add_column | done]].
    split; [by apply columns_indexed_add_column|]. split; [|split; [done|]].
    + intros k row Hk. destruct Hdense as (_ & _ & Hin).
      specialize (Hin k (mk_is_Some _ _ Hk)). lia.
    + eapply Forall_impl; [exact Hent|].
      intros e (column & cell & Hcol & Hi & Hv & Hblank). exists column, cell.
      split; [|done]. unfold after. rewrite add_column_eq. simpl.
      apply elem_of_app. by left.
  - destruct IH as ((Hidx & Hsh & Hcap & Hent) & Hdense & Hhdr).
    split; [|split; [by apply rows_dense_add_row | done]].
    split; [done|]. split; [by apply rows_shaped_add_row|]. split; [done|].
    eapply Forall_impl; [exact Hent|].
    intros e (column & cell & Hcol & Hi & Hv & Hblank). exists column, cell.
    split; [done|]. split; [done|]. split; [done|].
    intros Hno. apply Hblank. by eapply no_stored_row_add_row.
  - destruct IH as (Hok & Hdense & Hhdr).
    pose proof (render_lines_renders_to lr cr t) as Hr.
    split; [by eapply table_ok_renders_to|].
    destruct Hr as [Hm _]. rewrite Hm. done.
Qed.

(** *** How many lines *)

Lemma mapM_length {A B} (f : A → M DataTable B) (l : list A) t (bs : list B) :
  (mapM f l t).1 = Ok bs → length bs = length l.
Proof.
  intros Hok.
  destruct (mapM_invariant (λ _, True) (λ _ _, True) f l) with (s := t) as [_ H]; [done..|].
  symmetry. by eapply Forall2_length, H.
Qed.

Lemma length_py_range a b : length (py_range a b) = Z.to_nat (b - a).
Proof. unfold py_range. apply length_seqZ. Qed.

Lemma stitch_length t (fixed_lines lines : Lines) :
  length fixed_lines = Z.to_nat (fixed_rows t) →
  length (stitch host t fixed_lines lines) =
  Z.to_nat (Z.max (fixed_rows t) (Z.of_nat (length lines))).
Proof.
  intros Hfl. unfold stitch. rewrite length_fmap.
  destruct fixed_lines as [|l0 fl]; simpl in *; [lia|].
  rewrite length_app. unfold py_slice_from. rewrite decide_True by lia.
  rewrite length_drop. simpl. lia.
Qed.

Lemma render_lines_length line_range column_range t (lines : Lines) :
  (render_lines host line_range column_range t).1 = Ok lines →
  length lines = Z.to_nat (Z.max (fixed_rows t) (line_range.2 - line_range.1)).
Proof.
  rewrite render_lines_eq.
  set (x1 := column_range.1 + (scroll_offset t).1).
  set (x2 := column_range.2 + (scroll_offset t).1).
  pose proof (mapM_length (λ y, _render_line host y x1 x2) (py_range 0 (fixed_rows t)) t) as H1.
  pose proof (render_rows_renders_to x1 x2 (py_range 0 (fixed_rows t)) t) as [Hm1 _].
  destruct (mapM _ _ t) as [[fl|e] t1]; simpl in *; [|done].
  specialize (H1 fl eq_refl). rewrite length_py_range in H1.
  pose proof (mapM_length (λ y, _render_line host y x1 x2)
                (py_range (line_range.1 + (scroll_offset t).2)
                          (line_range.2 + (scroll_offset t).2)) t1) as H2.
  pose proof (render_rows_renders_to x1 x2
                (py_range (line_range.1 + (scroll_offset t).2)
                          (line_range.2 + (scroll_offset t).2)) t1) as [Hm2 _].
  destruct (mapM _ _ t1) as [[ls|e] t2]; simpl in *; [|done].
  specialize (H2 ls eq_refl). rewrite length_py_range in H2.
  intros [= <-]. rewrite stitch_length.
  - rewrite Hm2, Hm1. simpl. lia.
  - rewrite Hm2, Hm1. simpl. by replace (fixed_rows t) with (fixed_rows t - 0) by lia.
Qed.

(** *** Scrolling is a translation of the ranges *)

Lemma _render_cell_scroll o y column :
  blind_to (set_scroll_offset o) (_render_cell host y column).
Proof.
  intros t. unfold _render_cell, bind, gets, modify, ret. simpl.
  destruct (contains _ _); simpl.
  - by destruct (getitem _ _) as [[v c']|].
  - destruct (py_index _ _) as [cell|]; simpl; [|done].
    by destruct (getitem _ _) as [[v c']|].
Qed.

Lemma cell_first_line_scroll o y column :
  blind_to (set_scroll_offset o) (cell_first_line host y column).
Proof.
  apply bind_blind_to; [apply _render_cell_scroll|].
  intros lines. apply lift_opt_blind_to.
Qed.

Lemma _render_line_scroll o y x1 x2 :
  blind_to (set_scroll_offset o) (_render_line host y x1 x2).
Proof.
  intros t. rewrite !_render_line_eq. unfold row_segments. simpl.
  rewrite (mapM_blind_to (set_scroll_offset o) (cell_first_line host y) (columns t)
             (cell_first_line_scroll o y)).
  by destruct (mapM _ _ t) as [[segs|e] t'].
Qed.

Lemma render_rows_scroll o x1 x2 ys :
  blind_to (set_scroll_offset o) (mapM (λ y, _render_line host y x1 x2) ys).
Proof. apply mapM_blind_to. intros y. apply _render_line_scroll. Qed.

Lemma render_lines_scroll (o line_range column_range : Z * Z) t :
  (render_lines host line_range column_range (set_scroll_offset o t)).1 =
  (render_lines host (line_range.1 + o.2, line_range.2 + o.2)
                     (column_range.1 + o.1, column_range.2 + o.1)
                     (set_scroll_offset (0, 0) t)).1.
Proof.
  rewrite !render_lines_eq. simpl. rewrite !Z.add_0_r.
  rewrite !render_rows_scroll.
  destruct (mapM _ _ t) as [[fl|e] t1]; simpl; [|done].
  rewrite ?render_rows_scroll.
  by destruct (mapM _ _ t1) as [[ls|e] t2].
Qed.

(** *** Fixed rows and the fixed prefix *)













(** *** Widths *)

Lemma line_length_apply_style (l : list Segment) (s : Style) :
  apply_style_spec host → line_length (apply_style host l s) = line_length l.
Proof. intros Hsty. unfold line_length. by rewrite Hsty, length_fmap. Qed.

Lemma line_length_adjust (l : list Segment) (w : Z) :
  adjust_line_length_spec host → 0 ≤ w →
  line_length (adjust_line_length host l w) = w.
Proof.
  intros Hadj Hw. unfold line_length. rewrite Hadj by done.
  rewrite length_take, length_app, length_replicate. lia.
Qed.

Lemma compose_line_length t y x1 x2 (cell_segments : list (list Segment)) :
  adjust_line_length_spec host → apply_style_spec host →
  0 ≤ content_region_width t →
  line_length (compose_line host t y x1 x2 cell_segments) = content_region_width t.
Proof.
  intros Hadj Hsty Hw. unfold compose_line.
  destruct (bool_decide (y = 0) && show_header t).
  - rewrite line_length_apply_style by done. by apply line_length_adjust.
  - by apply line_length_adjust.
Qed.

Lemma render_rows_width x1 x2 ys t lines :
  adjust_line_length_spec host → apply_style_spec host →
  0 ≤ content_region_width t →
  (mapM (λ y, _render_line host y x1 x2) ys t).1 = Ok lines →
  Forall (λ line, line_length line = content_region_width t) lines.
Proof.
  intros Hadj Hsty Hw Hok.
  destruct (mapM_invariant (renders_to host t)
              (λ _ line, line_length line = content_region_width t)
              (λ y, _render_line host y x1 x2) ys) with (s := t) as [_ Hq];
    [|apply renders_to_refl|].
  - intros y s _ Hs. split.
    + eapply renders_to_trans; [exact Hs|]. apply _render_line_renders_to.
    + intros line. rewrite _render_line_eq.
      destruct (row_segments host y s) as [[segs|e] s']; [|done].
      intros [= <-]. destruct Hs as [-> _].
      by rewrite compose_line_length.
  - specialize (Hq lines Hok). clear Hok.
    induction Hq; constructor; auto.
Qed.

Lemma stitch_Forall (P : list Segment → Prop) t (fixed_lines lines : Lines) :
  (∀ line s, P line → P (apply_style host line s)) →
  Forall P fixed_lines → Forall P lines → Forall P (stitch host t fixed_lines lines).
Proof.
  intros Hsty Hf Hl. unfold stitch. apply Forall_fmap.
  assert (Forall P (py_slice_from (fixed_rows t) lines)) as Hd.
  { unfold py_slice_from. case_decide; by apply Forall_drop. }
  destruct fixed_lines as [|l0 fl].
  - eapply Forall_impl; [exact Hl|]. intros; by apply Hsty.
  - eapply Forall_impl; [apply Forall_app; split; [exact Hf | exact Hd]|].
    intros; by apply Hsty.
Qed.
End RenderFacts.

(** ** The concrete host meets the contracts *)

Section SampleHostFacts.
Import SampleHost.

Lemma sample_cells_of_cells (cs : list (StyledChar Style)) : cells (of_cells cs) = cs.
Proof.
  unfold cells, of_cells. induction cs as [|[ch st] cs IH]; [done|].
  rewrite !fmap_cons. simpl in *. by rewrite IH.
Qed.

Lemma sample_adjust_spec : adjust_line_length_spec host.
Proof. intros l w Hw. simpl. unfold adjust. by rewrite sample_cells_of_cells. Qed.

Lemma sample_apply_style_spec : apply_style_spec host.
Proof.
  intros l s. simpl. unfold restyle, cells.
  induction l as [|seg l IH]; [done|].
  rewrite !fmap_cons. simpl. rewrite fmap_app, <- IH. f_equal.
  unfold segment_cells. simpl. rewrite <- list_fmap_compose. done.
Qed.

Lemma sample_console_one_line : console_one_line host.
Proof. intros cell w. done. Qed.

End SampleHostFacts.

(** ** The sample tables *)

Section SampleFacts.
Import SampleHost Samples.

Lemma one_row_indexed : columns_indexed one_row.
Proof. by apply (built_table [("Name", 6); ("Age", 5)] [["al"; "30"]]); repeat constructor. Qed.

Lemma one_row_shaped : rows_shaped one_row.
Proof. by apply (built_table [("Name", 6); ("Age", 5)] [["al"; "30"]]); repeat constructor. Qed.

Lemma one_row_coherent : coherent_state host one_row.
Proof. split; [apply one_row_indexed|]. split; [by vm_compute | constructor]. Qed.

Lemma one_row_warm_built : built host one_row_warm.
Proof.
  apply built_render.
  apply (built_add_row host _ ["al"; "30"]); [|done].
  apply (built_add_column host _ "Age" 5); [|done].
  apply (built_add_column host _ "Name" 6); [|done].
  apply built_init.
Qed.
End SampleFacts.

(** * The claims *)

Section Claims.
Context {CellType Style : Type}.
Local Abbreviation DataTable := (DataTable CellType Style).
Implicit Types (t : DataTable) (y : Z).

(** C2, amended: [add_row] makes no shape check.  For every table and
    every tuple of values, of any length, the call returns normally,
    stores the values under the key [row_count], increments [row_count]
    and recomputes the virtual size; columns and cache are untouched. *)
Theorem add_row_always_appends (cells : list CellType) t :
  ∃ t', add_row cells t = (Ok tt, t') ∧
        data t' = <[row_count t := cells]> (data t) ∧
        row_count t' = row_count t + 1 ∧
        virtual_size t' =
          {| size_width := py_sum (width <$> columns t);
             size_height := Z.of_nat (size (<[row_count t := cells]> (data t)))
                            + int_of_bool (show_header t) |} ∧
        columns t' = columns t ∧
        _cell_render_cache t' = _cell_render_cache t.
Proof. eexists. split; [apply add_row_eq|]. by repeat split. Qed.

(** C3, amended: no mutation evicts.  [add_row] and [add_column] leave
    the cell render cache exactly as it was, and [_render_cell] returns
    the entry found under [(y, column.index)] whenever there is one,
    without looking at the current cell value or column width.  Entries
    leave the cache for capacity only: a [_render_cell] call on a cache
    with room left keeps every binding, and a [render_lines] call on a
    cache with one entry per key drops a key only if the cache is full
    afterwards.  Invalidation after a change of the model is left to
    the caller. *)
Theorem cache_survives_mutation (host : Host CellType Style)
    (cells : list CellType) (l : Text) (w : Z) (line_range column_range : Z * Z)
    t y (column : Column) (v : Lines Style) :
  _cell_render_cache (after (add_row cells) t) = _cell_render_cache t ∧
  _cell_render_cache (after (add_column l w) t) = _cell_render_cache t ∧
  (LRUCache.lookup (y, index column) (_cell_render_cache t) = Some v →
   (_render_cell host y column t).1 = Ok v) ∧
  (Z.of_nat (length (LRUCache.entries (_cell_render_cache t)))
     < LRUCache.maxsize (_cell_render_cache t) →
   ∀ k u, LRUCache.lookup k (_cell_render_cache t) = Some u →
          LRUCache.lookup k (_cell_render_cache (_render_cell host y column t).2) = Some u) ∧
  (LRUCache.wf (_cell_render_cache t) →
   ∀ k, k ∈ LRUCache.keys (_cell_render_cache t) →
        k ∉ LRUCache.keys (_cell_render_cache (render_lines host line_range column_range t).2) →
        LRUCache.maxsize (_cell_render_cache t)
        ≤ Z.of_nat (length (LRUCache.entries
                      (_cell_render_cache (render_lines host line_range column_range t).2)))).
Proof.
  split; [done|]. split; [done|]. split; [|split].
  - intros Hhit. by rewrite (_render_cell_hit host y column t v Hhit).
  - intros Hroom k u. by apply _render_cell_keeps_entries.
  - intros Hwf.
    destruct (render_lines_renders_to host line_range column_range t) as [_ (_ & _ & He)].
    by destruct (He Hwf) as (_ & _ & Hkeys).
Qed.

(** C4, amended: the computed virtual size has width equal to the sum of
    the widths of all columns, whatever their [visible] flag, and, when
    the stored rows are those counted by [row_count], height equal to
    [row_count] plus 1 if the header is shown. *)
Theorem update_dimensions_all_columns t :
  Z.of_nat (size (data t)) = row_count t →
  virtual_size (_update_dimensions t) =
    {| size_width := py_sum (width <$> columns t);
       size_height := row_count t + int_of_bool (show_header t) |}.
Proof. intros Hrows. unfold _update_dimensions. simpl. by rewrite Hrows. Qed.


(** C6, amended: the width of a line is not taken from the request.
    Every line returned by [render_lines] has a total styled-character
    width equal to [content_region.width], the width of the region the
    widget paints into, whatever line and column range is asked for and
    whatever the column widths add up to.  The console's
    [adjust_line_length] and [apply_style] are taken at their contract,
    and the width of the region is not negative. *)
Theorem render_lines_width (host : Host CellType Style)
    (line_range column_range : Z * Z) t (lines : Lines Style) :
  adjust_line_length_spec host → apply_style_spec host →
  0 ≤ content_region_width t →
  (render_lines host line_range column_range t).1 = Ok lines →
  Forall (λ line, line_length line = content_region_width t) lines.
Proof.
  intros Hadj Hsty Hw. rewrite render_lines_eq.
  set (x1 := column_range.1 + (scroll_offset t).1).
  set (x2 := column_range.2 + (scroll_offset t).1).
  pose proof (render_rows_width host x1 x2 (py_range 0 (fixed_rows t)) t) as H1.
  pose proof (render_rows_renders_to host x1 x2 (py_range 0 (fixed_rows t)) t) as [Hm _].
  destruct (mapM _ _ t) as [[fixed_lines|e] t1]; [|done]. simpl in *.
  pose proof (render_rows_width host x1 x2
                (py_range (line_range.1 + (scroll_offset t).2)
                          (line_range.2 + (scroll_offset t).2)) t1) as H2.
  destruct (mapM _ _ t1) as [[lines'|e] t2]; [|done]. simpl in *.
  intros [= <-]. apply stitch_Forall.
  - intros line s <-. by apply line_length_apply_style.
  - by apply H1.
  - rewrite Hm in H2. simpl in H2. by apply H2.
Qed.


(** C8, amended: a request is never rejected for its ranges.  When
    [render_lines] returns, whatever the ranges (negative, empty or
    reversed), the result has [max(fixed_rows, y2 - y1, 0)] lines: the
    fixed rows are always rendered, so the result is empty only when the
    line range is empty or reversed and there are no fixed rows, and the
    column range has no influence on the number of lines.  On a table
    with indexed columns, rows of the right shape and a harmless cache
    ([table_ok]) it does return. *)
Theorem render_lines_line_count (host : Host CellType Style)
    (line_range column_range : Z * Z) t :
  (∀ lines, (render_lines host line_range column_range t).1 = Ok lines →
            length lines = Z.to_nat (Z.max (fixed_rows t) (line_range.2 - line_range.1))) ∧
  (table_ok host t → console_one_line host →
   ∃ lines, (render_lines host line_range column_range t).1 = Ok lines).
Proof.
  split.
  - intros lines. apply render_lines_length.
  - apply render_lines_total.
Qed.

End Claims.

Module Examples.
Import SampleHost Samples.

(** C1, the code at the failing input: with the header hidden and two
    stored rows, display row 1 is answered with the row stored at key 0,
    although key 1 holds a row of its own. *)
Theorem get_row_hidden_header_row_1 :
  show_header two_rows_no_header = false ∧
  data two_rows_no_header !! 1 = Some ["b"] ∧
  get_row two_rows_no_header 1 = [ItemCell "a"].
Proof. by vm_compute. Qed.

(** C2, counterexample: a row of one value is accepted by a table
    without columns. *)
Lemma add_row_shape_unchecked :
  length ["x"] ≠ length (columns empty) ∧
  (add_row ["x"] empty).1 = Ok tt ∧
  row_count (after (add_row ["x"]) empty) = 1 ∧
  data (after (add_row ["x"]) empty) !! 0 = Some ["x"] ∧
  add_row ["x"] empty ≠ (Raise ShapeMismatch, empty).
Proof.
  split; [by vm_compute|]. split; [by vm_compute|]. split; [by vm_compute|].
  split; [by vm_compute|]. intros Heq. by apply (f_equal fst) in Heq.
Qed.

(** C3, counterexample: the entry cached for display row 1 while it was
    blank is still there, and still returned, after [add_row] stored
    data for that row. *)
Lemma stale_cell_after_add_row :
  get_row rendered_early 1 = [ItemText empty_text] ∧
  get_row row_added_later 1 = [ItemCell "x"] ∧
  LRUCache.lookup (1, 0) (_cell_render_cache row_added_later)
    = Some (console_render_lines host (ItemText empty_text) 3) ∧
  (_render_cell host 1 column_K row_added_later).1
    = Ok (console_render_lines host (ItemText empty_text) 3) ∧
  console_render_lines host (ItemCell "x") 3 ≠ console_render_lines host (ItemText empty_text) 3.
Proof. repeat split; by vm_compute. Qed.

(** C3, witness: the stale entry of [row_added_later] is a hit, and it
    is still there after another cell was rendered and cached. *)
Lemma cache_survives_mutation_witness :
  (_render_cell host 1 column_K row_added_later).1
  = Ok (console_render_lines host (ItemText empty_text) 3) ∧
  LRUCache.lookup (0, 0) (_cell_render_cache row_added_later) = None ∧
  LRUCache.lookup (1, 0) (_cell_render_cache (_render_cell host 0 column_K row_added_later).2)
  = Some (console_render_lines host (ItemText empty_text) 3).
Proof.
  split; [|split; [by vm_compute|]].
  - apply (cache_survives_mutation host ["y"] "L" 2 (0, 1) (0, 11) row_added_later 1 column_K).
    by vm_compute.
  - destruct (cache_survives_mutation host ["y"] "L" 2 (0, 1) (0, 11) row_added_later 0 column_K
                (console_render_lines host (ItemText empty_text) 3))
      as (_ & _ & _ & Hroom & _).
    apply Hroom; by vm_compute.
Defined.

(** C4, counterexample: a column added by [add_column] is not flagged
    visible, and its width is counted all the same. *)
Lemma virtual_width_counts_hidden_columns :
  let t := after (add_column "Name" 10) empty in
  Forall (λ c, visible c = false) (columns t) ∧
  visible_width (columns t) = 0 ∧
  size_width (virtual_size (_update_dimensions t)) = 10.
Proof.
  split; [by repeat constructor|]. split; by vm_compute.
Qed.

(** C4, witness: the table [one_row]. *)
Lemma update_dimensions_all_columns_witness :
  virtual_size (_update_dimensions one_row) =
    {| size_width := 11; size_height := 2 |}.
Proof. apply (update_dimensions_all_columns one_row). by vm_compute. Defined.



(** C6, counterexample: the columns [0, 5) of [one_row] are asked for,
    a viewport of five cells; the content region is 11 cells wide, and
    so is every line returned. *)
Lemma requested_width_ignored :
  content_region_width one_row = 11 ∧
  texts (render_lines host (0, 2) (0, 5) one_row).1 = [" Name      "; " al        "] ∧
  ∃ line1 line2,
    (render_lines host (0, 2) (0, 5) one_row).1 = Ok [line1; line2] ∧
    line_length line1 = 11 ∧ line_length line2 = 11 ∧
    line_length line1 ≠ 5 - 0.
Proof.
  split; [done|]. split; [by vm_compute|].
  eexists _, _. split; [by vm_compute|]. by vm_compute.
Qed.

(** C6, witness: the same request. *)
Lemma render_lines_width_witness :
  ∃ lines, (render_lines host (0, 2) (0, 5) one_row).1 = Ok lines ∧
           length lines = 2%nat ∧
           Forall (λ line, line_length line = 11) lines.
Proof.
  eexists. split; [by vm_compute|]. split; [done|].
  apply (render_lines_width host (0, 2) (0, 5) one_row).
  - apply sample_adjust_spec.
  - apply sample_apply_style_spec.
  - by vm_compute.
  - by vm_compute.
Defined.


(** C8, counterexample: a reversed line range still yields the fixed
    row, a reversed column range yields as many lines as a proper one,
    and rows of negative index are rendered. *)
Lemma reversed_ranges_render :
  (∃ line, (render_lines host (5, 2) (0, 11) one_row).1 = Ok [line]) ∧
  (∃ line1 line2, (render_lines host (0, 2) (11, 0) one_row).1 = Ok [line1; line2]) ∧
  (∃ line1 line2 line3, (render_lines host (-3, 0) (0, 11) one_row).1 = Ok [line1; line2; line3]).
Proof.
  split; [|split].
  - eexists. by vm_compute.
  - eexists _, _. by vm_compute.
  - eexists _, _, _. by vm_compute.
Qed.

(** C8, witness: both ranges of the request reversed. *)
Lemma render_lines_line_count_witness :
  ∃ lines, (render_lines host (5, 2) (11, 0) one_row).1 = Ok lines ∧ length lines = 1%nat.
Proof.
  destruct (render_lines_line_count host (5, 2) (11, 0) one_row) as [Hcount Hok].
  destruct (Hok (coherent_table_ok host one_row one_row_coherent one_row_shaped)
              sample_console_one_line) as [lines Hlines].
  exists lines. split; [exact Hlines|]. by rewrite (Hcount lines Hlines).
Defined.

(** C9, the code at the failing input: a table of one column and two
    rows, built by [add_column] and [add_row], with the header hidden.
    Display row 5 lies past the last row and no row is stored for it,
    yet it is drawn with the value of the first row and not as a blank
    cell; nothing is raised.  With the header shown the same rows are
    blank.  This is the offset of [get_row] again (C1): with the header
    hidden every display row reads key 0. *)
Theorem hidden_header_row_past_end :
  two_rows_no_header
    = set_show_header false
        (after (add_row ["b"]) (after (add_row ["a"]) (after (add_column "K" 3) empty))) ∧
  row_count two_rows_no_header = 2 ∧
  data two_rows_no_header !! 5 = None ∧
  data two_rows_no_header !! 4 = None ∧
  get_row two_rows_no_header 5 = [ItemCell "a"] ∧
  (∃ line, (_render_line host 5 0 11 two_rows_no_header).1 = Ok line ∧
           plain line = " a         ") ∧
  plain (compose_line host two_rows_no_header 5 0 11 (blank_row host two_rows_no_header))
    = "           " ∧
  texts (render_lines host (4, 7) (0, 11) two_rows_no_header).1
    = [" a         "; " a         "; " a         "] ∧
  texts (render_lines host (4, 7) (0, 11) (set_show_header true two_rows_no_header)).1
    = [" K         "; "           "; "           "].
Proof.
  split; [done|]. do 4 (split; [by vm_compute|]).
  split; [eexists; split; by vm_compute|]. repeat split; by vm_compute.
Qed.
End Examples.

(** * Further properties of the widget *)

Section LoopFacts.
Context {S A B : Type}.
Implicit Types (f : A → M S B) (l : list A).

(** A loop whose body raises nothing but [E] raises nothing but [E]. *)
Lemma mapM_raise_only (I : S → Prop) (E : exn) f l :
  (∀ a s, a ∈ l → I s → I (f a s).2 ∧ ∀ e, (f a s).1 = Raise e → e = E) →
  ∀ s, I s → I (mapM f l s).2 ∧ ∀ e, (mapM f l s).1 = Raise e → e = E.
Proof.
  induction l as [|a l IH]; intros Hf s Hs; [by split|].
  rewrite mapM_cons. destruct (Hf a s) as [Hs' He]; [left | done |].
  destruct (f a s) as [[b|e] s'] eqn:Ef; simpl in *.
  - destruct (IH (λ a' s0 Ha', Hf a' s0 (list_elem_of_further _ _ _ Ha')) s' Hs') as [Hs'' He'].
    destruct (mapM f l s') as [[bs|e] s'']; simpl in *; [by split | by split].
  - split; [done|]. intros e' [= <-]. by apply He.
Qed.

(** A loop raises as soon as its body must raise on one element. *)
Lemma mapM_must_raise (I : S → Prop) f l a :
  a ∈ l →
  (∀ a' s, a' ∈ l → I s → I (f a' s).2) →
  (∀ s, I s → ∃ e, (f a s).1 = Raise e) →
  ∀ s, I s → ∃ e, (mapM f l s).1 = Raise e.
Proof.
  induction l as [|a0 l IH]; intros Ha Hinv Hraise s Hs.
  - by apply elem_of_nil in Ha.
  - rewrite mapM_cons. pose proof (Hinv a0 s (list_elem_of_here _ _) Hs) as Hs'.
    destruct (f a0 s) as [[b|e] s'] eqn:Ef; simpl in *; [|by eexists].
    apply elem_of_cons in Ha as [->|Ha].
    + destruct (Hraise s Hs) as [e He]. by rewrite Ef in He.
    + destruct (IH Ha (λ a' s0 Ha', Hinv a' s0 (list_elem_of_further _ _ _ Ha')) Hraise s' Hs')
        as [e He].
      destruct (mapM f l s') as [[bs|e'] s'']; simpl in *; [done | by eexists].
Qed.

End LoopFacts.

Section Extras.
Context {CellType Style : Type}.
Local Abbreviation DataTable := (DataTable CellType Style).
Local Abbreviation Segment := (Segment Style).
Local Abbreviation Lines := (Lines Style).
Variable host : Host CellType Style.
Implicit Types (t : DataTable) (y : Z) (column : Column).

(** ** The table model *)

(** X1: on every table reached from a new widget by [add_column],
    [add_row] and renders, the column at position [i] carries the index
    [i], so that the cache key [(y, column.index)] names one cell, and
    no column is flagged visible. *)
Theorem built_columns_indexed t (i : nat) (c : Column) :
  built host t → columns t !! i = Some c →
  index c = Z.of_nat i ∧ visible c = false.
Proof.
  intros Hbuilt. revert i c.
  induction Hbuilt as [o w hs cs | t l w _ IH Hnone | t cells _ IH Hlen | t lr cr _ IH];
    intros i c.
  - simpl. by rewrite lookup_nil.
  - unfold after. rewrite add_column_eq. simpl.
    intros Hi. apply lookup_app_Some in Hi as [Hi|[Hge Hi]]; [by apply IH|].
    apply list_lookup_singleton_Some in Hi as [Hi <-]. simpl. split; [lia | done].
  - apply IH.
  - destruct (render_lines_renders_to host lr cr t) as [Hm _]. rewrite Hm. apply IH.
Qed.

(** X2: on every such table the stored rows are exactly those keyed
    [0 .. row_count - 1]: keys are handed out in order, without gaps, and
    [row_count] is the number of rows. *)
Theorem built_rows_keyed t (k : Z) :
  built host t →
  (is_Some (data t !! k) ↔ 0 ≤ k < row_count t) ∧
  Z.of_nat (size (data t)) = row_count t.
Proof.
  intros Hbuilt. split; [|by apply (built_table_ok host t Hbuilt)].
  revert k.
  induction Hbuilt as [o w hs cs | t l w _ IH Hnone | t cells Hb IH Hlen | t lr cr _ IH];
    intros k.
  - simpl. rewrite lookup_empty. split; [by intros [? ?] | lia].
  - apply IH.
  - destruct (built_table_ok host t Hb) as (_ & (Hn & _ & _) & _).
    unfold after. rewrite add_row_eq. simpl. rewrite lookup_insert.
    case_decide as Hk.
    + subst k. split; [lia | by eexists].
    + rewrite IH. lia.
  - destruct (render_lines_renders_to host lr cr t) as [Hm _]. rewrite Hm. apply IH.
Qed.

(** X3: on every such table [get_row] answers any display row, header,
    stored or missing, with exactly one item per column. *)
Theorem built_get_row_length t y :
  built host t → length (get_row t y) = length (columns t).
Proof.
  intros Hbuilt. apply get_row_length.
  by destruct (built_table_ok host t Hbuilt) as ((_ & Hsh & _) & _).
Qed.

(** X4: with the header shown, [add_row] and [get_row] form a round
    trip: the values just added are read back at display row
    [row_count + 1] (counted before the call), and every other display
    row reads as before. *)
Theorem add_row_get_row (cells : list CellType) t :
  show_header t = true → 0 ≤ row_count t →
  get_row (after (add_row cells) t) (row_count t + 1) = ItemCell <$> cells ∧
  ∀ y, y ≠ row_count t + 1 → get_row (after (add_row cells) t) y = get_row t y.
Proof.
  intros Hhdr Hn. unfold after. rewrite add_row_eq. split.
  - unfold get_row. simpl. rewrite Hhdr, bool_decide_eq_false_2 by lia. simpl.
    replace (row_count t + 1 - 1) with (row_count t) by lia.
    by rewrite lookup_insert_eq.
  - intros y Hy. unfold get_row. simpl. rewrite Hhdr.
    destruct (bool_decide (y = 0)); simpl; [done|].
    by rewrite lookup_insert_ne by lia.
Qed.

(** X5: once a column or a row was added, the virtual size of such a
    table is up to date with its model: the width is the sum of the
    column widths and the height is [row_count] plus one for the
    header. *)
Theorem built_virtual_size t :
  built host t → columns t ≠ [] ∨ row_count t ≠ 0 →
  virtual_size t =
    {| size_width := py_sum (width <$> columns t); size_height := row_count t + 1 |}.
Proof.
  induction 1 as [o w hs cs | t l w Hb _ Hnone | t cells Hb _ Hlen | t lr cr _ IH];
    intros Hsome.
  - by destruct Hsome.
  - destruct (built_table_ok host t Hb) as (_ & (_ & Hsize & _) & Hhdr).
    unfold after. rewrite add_column_eq. simpl. by rewrite Hsize, Hhdr.
  - pose proof (built_add_row host t cells Hb Hlen) as Hb'.
    destruct (built_table_ok host _ Hb') as (_ & (_ & Hsize & _) & Hhdr).
    revert Hsize Hhdr. unfold after. rewrite add_row_eq. simpl.
    intros -> ->. done.
  - destruct (render_lines_renders_to host lr cr t) as [Hm _].
    rewrite Hm in Hsome |- *. by apply IH.
Qed.

(** ** One cell *)


(** X7: the only way [_render_cell] fails, when the cache has room for
    an entry, is an [IndexError] for a cell that is not cached and that
    the row does not have; the widget, cache included, is then left as
    it was. *)
Theorem _render_cell_failure y column t :
  1 ≤ LRUCache.maxsize (_cell_render_cache t) →
  ((∃ e, (_render_cell host y column t).1 = Raise e) ↔
   LRUCache.lookup (y, index column) (_cell_render_cache t) = None ∧
   py_index (get_row t y) (index column) = None) ∧
  (∀ e, (_render_cell host y column t).1 = Raise e →
        e = IndexError ∧ (_render_cell host y column t).2 = t).
Proof.
  intros Hcap.
  destruct (LRUCache.lookup (y, index column) (_cell_render_cache t)) as [v|] eqn:Hl.
  { rewrite (_render_cell_hit host y column t v Hl). simpl.
    split; [|done]. split; [by intros [? ?] | by intros [? _]]. }
  destruct (py_index (get_row t y) (index column)) as [cell|] eqn:Hc.
  - rewrite (_render_cell_miss host y column t cell Hl Hc Hcap). simpl.
    split; [|done]. split; [by intros [? ?] | by intros [_ ?]].
  - rewrite (_render_cell_miss_raise host y column t Hl Hc). simpl.
    split; [split; [done | by eexists]|]. by intros e [= <-].
Qed.

(** ** Lines and viewports *)

Lemma cell_line_outcome_raise t y column e :
  cell_line_outcome host t y column = Raise e → e = IndexError.
Proof.
  unfold cell_line_outcome, cell_outcome.
  destruct (py_index (get_row t y) _); [|by intros [= <-]].
  destruct (py_index _ 0); [done | by intros [= <-]].
Qed.

Lemma row_segments_raise_only y t :
  coherent_state host t →
  coherent_state host (row_segments host y t).2 ∧
  ∀ e, (row_segments host y t).1 = Raise e → e = IndexError.
Proof.
  intros Hst. unfold row_segments.
  destruct (mapM_raise_only (λ s, renders_to host t s ∧ coherent_state host s) IndexError
              (cell_first_line host y) (columns t)) with (s := t) as [[_ Hst'] He];
    [| split; [apply renders_to_refl | done] | by split].
  intros column s Hcol [Hr Hs].
  assert (column ∈ columns s) as Hcol' by by rewrite (renders_to_columns _ _ _ Hr).
  pose proof (cell_first_line_renders_to host y column s Hcol') as Hr'.
  split.
  - split; [by eapply renders_to_trans | by eapply coherent_state_renders_to].
  - intros e. rewrite cell_first_line_coherent by done. apply cell_line_outcome_raise.
Qed.

Lemma _render_line_raise_only y x1 x2 t :
  coherent_state host t →
  coherent_state host (_render_line host y x1 x2 t).2 ∧
  ∀ e, (_render_line host y x1 x2 t).1 = Raise e → e = IndexError.
Proof.
  intros Hst. destruct (row_segments_raise_only y t Hst) as [Hst' He].
  rewrite _render_line_eq.
  destruct (row_segments host y t) as [[segs|e] t']; simpl in *; [by split|].
  split; [done|]. intros e' [= <-]. by apply He.
Qed.

Lemma render_rows_raise_only x1 x2 ys t :
  coherent_state host t →
  coherent_state host (mapM (λ y, _render_line host y x1 x2) ys t).2 ∧
  ∀ e, (mapM (λ y, _render_line host y x1 x2) ys t).1 = Raise e → e = IndexError.
Proof.
  intros Hst.
  apply (mapM_raise_only (coherent_state host) IndexError); [|done].
  intros y s _ Hs. by apply _render_line_raise_only.
Qed.

(** A display row with fewer items than there are columns cannot be
    rendered. *)
Lemma _render_line_short_row y x1 x2 t :
  coherent_state host t →
  (length (get_row t y) < length (columns t))%nat →
  (_render_line host y x1 x2 t).1 = Raise IndexError.
Proof.
  intros Hst Hshort.
  destruct (lookup_lt_is_Some_2 (columns t) (length (get_row t y)) Hshort) as [column Hcol].
  assert (column ∈ columns t) as Hin by (apply list_elem_of_lookup; eauto).
  assert (∃ e, (row_segments host y t).1 = Raise e) as [e He].
  { unfold row_segments.
    apply (mapM_must_raise (λ s, renders_to host t s ∧ coherent_state host s)
             (cell_first_line host y) (columns t) column Hin);
      [| | split; [apply renders_to_refl | done]].
    - intros column' s Hcol' [Hr Hs].
      assert (column' ∈ columns s) as Hcol'' by by rewrite (renders_to_columns _ _ _ Hr).
      pose proof (cell_first_line_renders_to host y column' s Hcol'') as Hr'.
      split; [by eapply renders_to_trans | by eapply coherent_state_renders_to].
    - intros s [Hr Hs]. exists IndexError.
      rewrite cell_first_line_coherent by (done || by rewrite (renders_to_columns _ _ _ Hr)).
      destruct Hr as [Hm _]. rewrite (cell_line_outcome_same_model host t s) by done.
      unfold cell_line_outcome, cell_outcome.
      destruct Hst as (Hidx & _). rewrite (Hidx _ _ Hcol), py_index_nat.
      by rewrite (lookup_ge_None_2 (get_row t y)). }
  destruct (row_segments_raise_only y t Hst) as [_ Honly].
  rewrite (Honly e He) in He. rewrite _render_line_eq.
  destruct (row_segments host y t) as [[segs|e'] t']; simpl in *; [done|].
  by injection He as ->.
Qed.

(** A display row that cannot be rendered, whatever the cache holds,
    fails every request whose fixed rows or scrolled line range cover
    it. *)
Lemma render_lines_raises_at (line_range column_range : Z * Z) t y :
  coherent_state host t →
  (∀ x1 x2 s, coherent_state host s → same_model t s →
     (_render_line host y x1 x2 s).1 = Raise IndexError) →
  0 ≤ y < fixed_rows t ∨
  line_range.1 + (scroll_offset t).2 ≤ y < line_range.2 + (scroll_offset t).2 →
  (render_lines host line_range column_range t).1 = Raise IndexError.
Proof.
  intros Hst Hfails Hy. rewrite render_lines_eq.
  set (x1 := column_range.1 + (scroll_offset t).1).
  set (x2 := column_range.2 + (scroll_offset t).1).
  set (f := λ y, _render_line host y x1 x2).
  set (I := λ s, coherent_state host s ∧ same_model t s).
  assert (∀ y' s, I s → I (f y' s).2) as Hstep.
  { intros y' s [Hs Hm]. split; [by apply _render_line_raise_only|].
    eapply same_model_trans; [exact Hm|]. apply _render_line_renders_to. }
  assert (∀ ys s, I s → I (mapM f ys s).2 ∧ ∀ e, (mapM f ys s).1 = Raise e → e = IndexError)
    as Honly.
  { intros ys s Hs. apply (mapM_raise_only I IndexError); [|done].
    intros y' s' _ Hs'. split; [by apply Hstep|].
    apply _render_line_raise_only, Hs'. }
  assert (∀ ys s, y ∈ ys → I s → (mapM f ys s).1 = Raise IndexError) as Hrows.
  { intros ys s Hin Hs.
    destruct (mapM_must_raise I f ys y Hin) with (s := s) as [e He]; [| | done |].
    - intros y' s' _ Hs'. by apply Hstep.
    - intros s' [Hs' Hm]. exists IndexError. by apply Hfails.
    - destruct (Honly ys s Hs) as [_ Hvalue]. by rewrite (Hvalue e He) in He. }
  assert (I t) as Ht by (split; [done | apply same_model_refl]).
  destruct Hy as [Hy|Hy].
  - rewrite (surjective_pairing (mapM f (py_range 0 (fixed_rows t)) t)).
    rewrite Hrows; [done | | done]. apply elem_of_seqZ. lia.
  - destruct (Honly (py_range 0 (fixed_rows t)) t Ht) as [Ht1 Hvalue].
    destruct (mapM f (py_range 0 (fixed_rows t)) t) as [[fl|e] t1]; simpl in *.
    + rewrite (surjective_pairing (mapM f _ t1)).
      rewrite Hrows; [done | | done]. apply elem_of_seqZ. lia.
    + by rewrite (Hvalue e eq_refl).
Qed.

(** X8: [add_row] accepts a row with fewer values than there are
    columns, but such a row cannot be drawn: with a coherent cache,
    every [render_lines] call whose fixed rows or scrolled line range
    cover a display row with too few items raises [IndexError]. *)
Theorem render_lines_short_row (line_range column_range : Z * Z) t y :
  coherent_state host t →
  (length (get_row t y) < length (columns t))%nat →
  0 ≤ y < fixed_rows t ∨
  line_range.1 + (scroll_offset t).2 ≤ y < line_range.2 + (scroll_offset t).2 →
  (render_lines host line_range column_range t).1 = Raise IndexError.
Proof.
  intros Hst Hshort Hy.
  apply (render_lines_raises_at _ _ _ y); [done | | done].
  intros x1 x2 s Hs Hm. apply _render_line_short_row; [done|].
  rewrite (same_model_get_row t s) by done. by rewrite Hm.
Qed.

Lemma get_row_add_column_lookup (l : Text) (w : Z) t y (i : nat) (cell : RowItem CellType) :
  get_row t y !! i = Some cell → get_row (after (add_column l w) t) y !! i = Some cell.
Proof.
  unfold after. rewrite add_column_eq. unfold get_row. simpl.
  destruct (bool_decide (y = 0) && show_header t).
  - rewrite fmap_app. apply lookup_app_l_Some.
  - destruct (data t !! _); [done|]. rewrite fmap_app. apply lookup_app_l_Some.
Qed.

Lemma coherent_state_add_column (l : Text) (w : Z) t :
  coherent_state host t → coherent_state host (after (add_column l w) t).
Proof.
  intros (Hidx & Hcap & Hcoh). split; [by apply columns_indexed_add_column|].
  split; [done|]. eapply Forall_impl; [exact Hcoh|].
  intros e (column & cell & Hcol & Hi & Hcell & Hv). exists column, cell.
  split; [|split; [done|split; [|done]]].
  - unfold after. rewrite add_column_eq. simpl. apply elem_of_app. by left.
  - apply list_elem_of_lookup in Hcol as [i Hcol].
    rewrite (Hidx i column Hcol), py_index_nat in Hcell |- *.
    by apply get_row_add_column_lookup.
Qed.

(** X9: columns have to be added before rows.  When a column is added
    to a table that already stores rows with one value per column, the
    stored rows are one value short, and, with a coherent cache, every
    [render_lines] call whose fixed rows or scrolled line range cover
    the display row of a stored row raises [IndexError]. *)
Theorem add_column_after_rows (line_range column_range : Z * Z) (l : Text) (w : Z)
    t (k : Z) (row : list CellType) :
  coherent_state host t → rows_shaped t → show_header t = true →
  0 ≤ k → data t !! k = Some row →
  0 ≤ k + 1 < fixed_rows t ∨
  line_range.1 + (scroll_offset t).2 ≤ k + 1 < line_range.2 + (scroll_offset t).2 →
  (render_lines host line_range column_range (after (add_column l w) t)).1
  = Raise IndexError.
Proof.
  intros Hst Hsh Hhdr Hk Hrow Hy.
  set (t' := after (add_column l w) t).
  assert (length (get_row t' (k + 1)) < length (columns t'))%nat as Hshort.
  { unfold t', after. rewrite add_column_eq. unfold get_row. simpl.
    rewrite Hhdr, bool_decide_eq_false_2 by lia. simpl.
    replace (k + 1 - 1) with k by lia. rewrite Hrow.
    rewrite length_fmap, length_app, (Hsh k row Hrow). simpl. lia. }
  apply (render_lines_raises_at _ _ _ (k + 1));
    [by apply coherent_state_add_column | | exact Hy].
  intros x1 x2 s Hs Hm. apply _render_line_short_row; [done|].
  rewrite (same_model_get_row t' s) by done. by rewrite Hm.
Qed.

(** X10: renders do not influence each other.  With a coherent cache,
    what [render_lines] returns for one viewport is the same whether or
    not another viewport (or the same one) was rendered just before. *)
Theorem render_lines_after_render (line_range column_range line_range' column_range' : Z * Z) t :
  coherent_state host t →
  (render_lines host line_range column_range
     (render_lines host line_range' column_range' t).2).1 =
  (render_lines host line_range column_range t).1.
Proof.
  intros Hst. pose proof (render_lines_renders_to host line_range' column_range' t) as Hr.
  apply render_lines_twin. split; [|split].
  - apply same_model_sym, Hr.
  - by eapply coherent_state_renders_to.
  - done.
Qed.

(** X11: the scroll offset is a translation of the request and nothing
    else.  Rendering the ranges [(y1, y2)], [(x1, x2)] at the scroll
    offset [(sx, sy)] returns what rendering [(y1 + sy, y2 + sy)],
    [(x1 + sx, x2 + sx)] returns with nothing scrolled. *)
Theorem render_lines_translates (sx sy : Z) (line_range column_range : Z * Z) t :
  (render_lines host line_range column_range (set_scroll_offset (sx, sy) t)).1 =
  (render_lines host (line_range.1 + sy, line_range.2 + sy)
                     (column_range.1 + sx, column_range.2 + sx)
                     (set_scroll_offset (0, 0) t)).1.
Proof. apply (render_lines_scroll host (sx, sy)). Qed.

(** X12: what a line shows.  With a coherent cache, a console that
    returns one line per cell, and a display row that has at least one
    item per column, [_render_line] returns the line composed of the
    items of [get_row], taken in column order and each rendered to the
    width of its column; items beyond the last column are not shown. *)
Theorem _render_line_content y x1 x2 t :
  coherent_state host t → console_one_line host →
  (length (columns t) ≤ length (get_row t y))%nat →
  (_render_line host y x1 x2 t).1 =
  Ok (compose_line host t y x1 x2
        (zip_with (λ column cell,
                     default [] (head (console_render_lines host cell (width column))))
                  (columns t) (get_row t y))).
Proof.
  intros Hst Hone Hlen. rewrite _render_line_eq.
  destruct (mapM_total (λ s, renders_to host t s ∧ coherent_state host s)
              (λ column seg, cell_line_outcome host t y column = Ok seg)
              (cell_first_line host y) (columns t)) with (s := t)
    as [_ (segs & Hsegs & Hall)]; [| split; [apply renders_to_refl | done] |].
  { intros column s Hcol [Hr Hs].
    assert (column ∈ columns s) as Hcol' by by rewrite (renders_to_columns _ _ _ Hr).
    pose proof (cell_first_line_renders_to host y column s Hcol') as Hr'.
    split; [split; [by eapply renders_to_trans | by eapply coherent_state_renders_to]|].
    rewrite cell_first_line_coherent by done.
    destruct Hr as [Hm _]. rewrite (cell_line_outcome_same_model host t s) by done.
    apply list_elem_of_lookup in Hcol as [i Hi].
    destruct (lookup_lt_is_Some_2 (get_row t y) i) as [cell Hcell].
    { apply lookup_lt_Some in Hi. lia. }
    pose proof (Hone cell (width column)) as Hline.
    destruct (console_render_lines host cell (width column)) as [|line [|? ?]] eqn:Hcons;
      try done.
    assert (cell_line_outcome host t y column = Ok line) as Hout.
    { unfold cell_line_outcome, cell_outcome. destruct Hst as (Hidx & _).
      by rewrite (Hidx i column Hi), py_index_nat, Hcell, Hcons. }
    by exists line. }
  fold (row_segments host y t) in Hsegs.
  destruct (row_segments host y t) as [[segs'|e] t']; simpl in *; [|done].
  injection Hsegs as ->. do 2 f_equal.
  apply list_eq. intros i. rewrite lookup_zip_with.
  destruct (columns t !! i) as [column|] eqn:Hi; simpl.
  - destruct (Forall2_lookup_l _ _ _ _ _ Hall Hi) as (seg & Hseg & Hout).
    rewrite Hseg. unfold cell_line_outcome, cell_outcome in Hout.
    destruct Hst as (Hidx & _). rewrite (Hidx i column Hi), py_index_nat in Hout.
    destruct (get_row t y !! i) as [cell|]; simpl; [|done].
    rewrite py_index_0 in Hout. destruct (head _) as [line|]; [|done].
    simpl. by injection Hout as ->.
  - apply lookup_ge_None. rewrite <- (Forall2_length _ _ _ Hall).
    by apply lookup_ge_None.
Qed.

(** Each line of a loop over display rows is what rendering that row
    alone returns. *)
Lemma render_rows_each x1 x2 ys t (ls : Lines) :
  coherent_state host t →
  (mapM (λ y, _render_line host y x1 x2) ys t).1 = Ok ls →
  Forall2 (λ y line, (_render_line host y x1 x2 t).1 = Ok line) ys ls.
Proof.
  intros Hst Hok.
  destruct (mapM_invariant (λ s, renders_to host t s ∧ coherent_state host s)
              (λ y line, (_render_line host y x1 x2 t).1 = Ok line)
              (λ y, _render_line host y x1 x2) ys) with (s := t) as [_ H];
    [| split; [apply renders_to_refl | done] | by apply H].
  intros y s _ [Hr Hs]. split.
  - split; [|by apply _render_line_raise_only].
    eapply renders_to_trans; [exact Hr|]. apply _render_line_renders_to.
  - intros line Hline.
    destruct (_render_line_twin host y x1 x2 s t) as [_ Heq]; [|by rewrite <- Heq].
    split; [apply same_model_sym, Hr | by split].
Qed.

(** X13: which display row an output line shows.  With a coherent
    cache, line [i] of what [render_lines] returns is the line of
    display row [i] when [i < fixed_rows], and of display row
    [y1 + scroll_y + i] otherwise, with the overlay style applied: the
    fixed rows stay in place and cover the first rows of the window. *)
Theorem render_lines_row_of_line (line_range column_range : Z * Z) t
    (ls : list (list Segment)) (i : nat) :
  coherent_state host t →
  (render_lines host line_range column_range t).1 = Ok ls →
  (i < length ls)%nat →
  let y := if decide (Z.of_nat i < fixed_rows t) then Z.of_nat i
           else line_range.1 + (scroll_offset t).2 + Z.of_nat i in
  ∃ line,
    (_render_line host y (column_range.1 + (scroll_offset t).1)
                         (column_range.2 + (scroll_offset t).1) t).1 = Ok line ∧
    ls !! i = Some (apply_style host line (colors_style t)).
Proof.
  intros Hst Hok Hi y.
  revert Hok Hi. rewrite render_lines_eq.
  set (x1 := column_range.1 + (scroll_offset t).1).
  set (x2 := column_range.2 + (scroll_offset t).1).
  set (y1 := line_range.1 + (scroll_offset t).2) in *.
  set (y2 := line_range.2 + (scroll_offset t).2).
  set (f := λ y, _render_line host y x1 x2).
  pose proof (render_rows_renders_to host x1 x2 (py_range 0 (fixed_rows t)) t) as Hr1.
  pose proof (render_rows_each x1 x2 (py_range 0 (fixed_rows t)) t) as Hfixed.
  pose proof (mapM_length f (py_range 0 (fixed_rows t)) t) as Hflen.
  fold f in Hr1, Hfixed.
  destruct (mapM f (py_range 0 (fixed_rows t)) t) as [[fl|e] t1]; simpl in *; [|done].
  specialize (Hfixed fl Hst eq_refl). specialize (Hflen fl eq_refl).
  rewrite length_py_range, Z.sub_0_r in Hflen.
  assert (coherent_state host t1) as Hst1 by by eapply coherent_state_renders_to.
  pose proof (render_rows_renders_to host x1 x2 (py_range y1 y2) t1) as Hr2.
  pose proof (render_rows_each x1 x2 (py_range y1 y2) t1) as Hwindow.
  fold f in Hr2, Hwindow.
  destruct (mapM f (py_range y1 y2) t1) as [[lines|e] t2]; simpl in *; [|done].
  specialize (Hwindow lines Hst1 eq_refl).
  intros [= <-].
  rewrite (stitch_same_model host t t2)
    by (eapply same_model_trans; [apply Hr1 | apply Hr2]).
  unfold stitch. rewrite length_fmap. intros Hi.
  assert (∀ (j : nat) line, lines !! j = Some line →
            (_render_line host (y1 + Z.of_nat j) x1 x2 t).1 = Ok line) as Hrow.
  { intros j line Hj.
    destruct (Forall2_lookup_r _ _ _ _ _ Hwindow Hj) as (y' & Hy' & Hline).
    apply lookup_seqZ in Hy' as [-> _].
    destruct (_render_line_twin host (y1 + Z.of_nat j) x1 x2 t1 t) as [_ Heq];
      [|by rewrite <- Heq].
    split; [apply same_model_sym, Hr1 | by split]. }
  assert (∃ line, (_render_line host y x1 x2 t).1 = Ok line ∧
                  match fl with
                  | [] => lines
                  | _ :: _ => fl ++ py_slice_from (fixed_rows t) lines
                  end !! i = Some line) as (line & Hline & Hlook).
  { destruct fl as [|l0 fl'] eqn:Hfl.
    - simpl in Hflen. subst y. rewrite decide_False by lia.
      destruct (lookup_lt_is_Some_2 lines i Hi) as [line Hline].
      exists line. split; [by apply Hrow | done].
    - assert (0 < fixed_rows t) as Hpos by (simpl in Hflen; lia).
      rewrite <- Hfl in *. clear Hfl l0 fl'.
      unfold py_slice_from in *. rewrite decide_True in Hi by lia.
      rewrite decide_True by lia.
      subst y. destruct (decide (Z.of_nat i < fixed_rows t)) as [Hlt|Hge].
      + destruct (lookup_lt_is_Some_2 fl i) as [line Hline]; [lia|].
        exists line. rewrite lookup_app_l by lia. split; [|done].
        destruct (Forall2_lookup_r _ _ _ _ _ Hfixed Hline) as (y' & Hy' & Hout).
        apply lookup_seqZ in Hy' as [-> _]. by rewrite Z.add_0_l in Hout.
      + rewrite lookup_app_r by lia. rewrite lookup_drop.
        replace (Z.to_nat (fixed_rows t) + (i - length fl))%nat with i by lia.
        rewrite length_app, length_drop in Hi.
        destruct (lookup_lt_is_Some_2 lines i) as [line Hline]; [lia|].
        exists line. split; [by apply Hrow | done]. }
  exists line. split; [done|]. by rewrite list_lookup_fmap, Hlook.
Qed.

(** X14: a table without columns renders any request: no cell is looked
    up, nothing is raised and the widget, cache included, is left as it
    was. *)
Theorem render_lines_no_columns (line_range column_range : Z * Z) t :
  columns t = [] →
  ∃ lines, render_lines host line_range column_range t = (Ok lines, t).
Proof.
  intros Hnone.
  assert (∀ x1 x2 ys, ∃ lines, mapM (λ y, _render_line host y x1 x2) ys t = (Ok lines, t))
    as Hrows.
  { intros x1 x2 ys.
    destruct (mapM_total (λ s, s = t) (λ _ _, True)
                (λ y, _render_line host y x1 x2) ys) with (s := t)
      as [Hs (lines & Hlines & _)]; [|done|].
    - intros y s _ ->. rewrite _render_line_eq. unfold row_segments.
      rewrite Hnone. simpl. split; [done | by eexists].
    - exists lines. by rewrite (surjective_pairing (mapM _ ys t)), Hs, Hlines. }
  rewrite render_lines_eq.
  destruct (Hrows (column_range.1 + (scroll_offset t).1) (column_range.2 + (scroll_offset t).1)
              (py_range 0 (fixed_rows t))) as [fl ->].
  destruct (Hrows (column_range.1 + (scroll_offset t).1) (column_range.2 + (scroll_offset t).1)
              (py_range (line_range.1 + (scroll_offset t).2)
                        (line_range.2 + (scroll_offset t).2))) as [ls ->].
  by eexists.
Qed.

(** X15: with the settings that [__init__] leaves (header shown), on
    every table reached from a new widget by [add_column] calls made
    while there is no row, [add_row] calls that supply one value per
    column, and any renders in between, [render_lines] returns for any
    line and column range, and a display row outside the stored rows
    (above the header or past [row_count]) is composed of rendered
    empty cells.  The console is taken to return one line per cell. *)
Theorem built_table_renders t (line_range column_range : Z * Z) :
  console_one_line host →
  built host t →
  (∃ lines, (render_lines host line_range column_range t).1 = Ok lines) ∧
  (∀ y x1 x2, y < 0 ∨ row_count t < y →
     (_render_line host y x1 x2 t).1 =
     Ok (compose_line host t y x1 x2 (blank_row host t))).
Proof.
  intros Hone Hbuilt.
  destruct (built_table_ok host t Hbuilt) as (Hok & Hdense & Hhdr).
  split; [by apply render_lines_total|].
  intros y x1 x2 Hy.
  assert (no_stored_row t y) as Hno.
  { unfold no_stored_row. rewrite Hhdr.
    destruct Hdense as (Hn & _ & Hk). split; [lia|].
    destruct (data t !! (y - 1)) as [row|] eqn:E; [|done].
    specialize (Hk (y - 1) (mk_is_Some _ _ E)). lia. }
  destruct (_render_line_total host y x1 x2 t Hok Hone) as (segs & Hline & Hsegs).
  rewrite Hline. do 2 f_equal. by apply (blank_row_segments host y).
Qed.
End Extras.

Module ExtraExamples.
Import SampleHost Samples.

Lemma short_row_coherent : coherent_state host short_row.
Proof.
  split; [|split; [by vm_compute | constructor]].
  intros i c Hi.
  apply (columns_indexed_with_columns [("Name", 6); ("Age", 5)] empty); [|exact Hi].
  intros j c'. simpl. by rewrite lookup_nil.
Qed.

(** X1, witness: the second column of [one_row_warm]. *)
Lemma built_columns_indexed_witness :
  index column_Age = 1 ∧ visible column_Age = false.
Proof.
  apply (built_columns_indexed host one_row_warm 1 column_Age one_row_warm_built).
  by vm_compute.
Defined.

(** X2, witness: [one_row_warm] and the keys 0 and 1. *)
Lemma built_rows_keyed_witness :
  (is_Some (data one_row_warm !! 0) ↔ 0 ≤ 0 < row_count one_row_warm) ∧
  Z.of_nat (size (data one_row_warm)) = row_count one_row_warm.
Proof. apply (built_rows_keyed host one_row_warm 0 one_row_warm_built). Defined.

(** X3, witness: a display row far below the last row of [one_row_warm]. *)
Lemma built_get_row_length_witness :
  length (get_row one_row_warm 7) = length (columns one_row_warm).
Proof. apply (built_get_row_length host one_row_warm 7 one_row_warm_built). Defined.

(** X4, witness: a second row added to [one_row]. *)
Lemma add_row_get_row_witness :
  get_row (after (add_row ["bo"; "41"]) one_row) (row_count one_row + 1)
    = ItemCell <$> ["bo"; "41"] ∧
  ∀ y, y ≠ row_count one_row + 1 →
       get_row (after (add_row ["bo"; "41"]) one_row) y = get_row one_row y.
Proof. apply (add_row_get_row ["bo"; "41"] one_row); by vm_compute. Defined.


(** X7, witness: the second column of the short row. *)
Lemma _render_cell_failure_witness :
  (_render_cell host 1 column_Age short_row).1 = Raise IndexError ∧
  (_render_cell host 1 column_Age short_row).2 = short_row.
Proof.
  destruct (_render_cell_failure host 1 column_Age short_row) as [Hiff Honly];
    [by vm_compute|].
  destruct (proj2 Hiff) as [e He]; [split; by vm_compute|].
  destruct (Honly e He) as [-> Hsame]. by split.
Defined.

(** X8, witness: the short row is display row 1 of the request. *)
Lemma render_lines_short_row_witness :
  (render_lines host (0, 2) (0, 11) short_row).1 = Raise IndexError.
Proof.
  apply (render_lines_short_row host (0, 2) (0, 11) short_row 1 short_row_coherent).
  - by vm_compute.
  - right. by vm_compute.
Defined.

(** X10, witness: [one_row], rendered after another viewport. *)
Lemma render_lines_after_render_witness :
  (render_lines host (0, 2) (0, 11) (render_lines host (1, 4) (3, 11) one_row).2).1 =
  (render_lines host (0, 2) (0, 11) one_row).1.
Proof. apply (render_lines_after_render host (0, 2) (0, 11) (1, 4) (3, 11) one_row one_row_coherent). Defined.

(** X12, witness: the data row of [one_row]. *)
Lemma _render_line_content_witness :
  (_render_line host 1 0 11 one_row).1 =
  Ok (compose_line host one_row 1 0 11
        (zip_with (λ column cell,
                     default [] (head (console_render_lines host cell (width column))))
                  (columns one_row) (get_row one_row 1))).
Proof.
  apply (_render_line_content host 1 0 11 one_row one_row_coherent sample_console_one_line).
  by vm_compute.
Defined.

(** X13, witness: [one_row] scrolled down by one row; output line 1 is
    display row 2. *)
Lemma render_lines_row_of_line_witness :
  ∃ ls, (render_lines host (0, 3) (0, 11) (set_scroll_offset (0, 1) one_row)).1 = Ok ls ∧
  ∃ line,
    (_render_line host 2 0 11 (set_scroll_offset (0, 1) one_row)).1 = Ok line ∧
    ls !! 1%nat = Some (apply_style host line "base").
Proof.
  eexists. split; [by vm_compute|].
  apply (render_lines_row_of_line host (0, 3) (0, 11)
           (set_scroll_offset (0, 1) one_row) _ 1 one_row_coherent);
    [by vm_compute | simpl; lia].
Defined.

(** X14, witness: the empty table. *)
Lemma render_lines_no_columns_witness :
  ∃ lines, render_lines host (0, 3) (0, 11) empty = (Ok lines, empty).
Proof. apply (render_lines_no_columns host (0, 3) (0, 11) empty). done. Defined.
(** X5, witness: [one_row_warm]. *)
Lemma built_virtual_size_witness :
  virtual_size one_row_warm = {| size_width := 11; size_height := 2 |}.
Proof.
  apply (built_virtual_size host one_row_warm one_row_warm_built).
  left. by vm_compute.
Defined.

(** X9, witness: a third column added to [one_row]. *)
Lemma add_column_after_rows_witness :
  (render_lines host (0, 2) (0, 11) (after (add_column "City" 6) one_row)).1
  = Raise IndexError.
Proof.
  apply (add_column_after_rows host (0, 2) (0, 11) "City" 6 one_row 0 ["al"; "30"]
           one_row_coherent one_row_shaped); try by vm_compute.
  right. by vm_compute.
Defined.

(** X15, witness: [one_row_warm], rendered past its last row. *)
Lemma built_table_renders_witness :
  (∃ lines, (render_lines host (0, 5) (0, 11) one_row_warm).1 = Ok lines) ∧
  (_render_line host 4 0 11 one_row_warm).1 =
  Ok (compose_line host one_row_warm 4 0 11 (blank_row host one_row_warm)).
Proof.
  destruct (built_table_renders host one_row_warm (0, 5) (0, 11)
              sample_console_one_line one_row_warm_built) as [Hlines Hblank].
  split; [exact Hlines|]. apply (Hblank 4 0 11). right. by vm_compute.
Defined.
End ExtraExamples.
